(** * ddafa: the filter stage, the preloader, the sink and the driver

    A shallow embedding of the parts of the FDK reconstruction pipeline
    that live in [weighting_stage.h] (the CUDA filter, [CUDAFilter.cu]),
    [preloader_stage.cu], [SinkStage.h] and [main.cpp], together with the
    properties of those parts.

    Conventions.
    - Integer quantities are [Z] (signed, C++ [int]/[std::int32_t]) or
      [nat] (indices and extents of type [std::size_t]).
    - Device and host buffers are lists; a pitched 2-D buffer is a list of
      rows.  A read or write outside the buffer is undefined behaviour in
      the source and is a fault ([None]) here.
    - Single-precision arithmetic is kept abstract: kernels are written
      over any type with the operations the kernels call ([FloatOps]).
    - CUDA runtime calls, queues and log output are events of a trace. *)

From Stdlib Require Import ZArith List String Lia Bool DecimalString.
From stdpp Require Import base option list.

Local Open Scope Z_scope.

(** ** Geometry *)

Module Geometry.

(** Modelled from the spec: the declaration of [common::Geometry]
    ([Geometry.h]) is not part of the sources at hand.  The spec names
    the detector's pixel counts [n_h] (columns, the width of a
    projection) and [n_v] (rows, the height), and states that
    [det_pixels_column] is the row count.  Both fields are
    [std::uint32_t]. *)
Record Geometry : Type := mkGeometry {
  det_pixels_row : Z;        (* pixels per detector row: n_h *)
  det_pixels_column : Z;     (* pixels per detector column: n_v *)
}.

Definition n_h (geo : Geometry) : Z := det_pixels_row geo.
Definition n_v (geo : Geometry) : Z := det_pixels_column geo.

Definition uint32_max : Z := 2 ^ 32 - 1.

Definition well_formed (geo : Geometry) : Prop :=
  0 <= det_pixels_row geo <= uint32_max /\
  0 <= det_pixels_column geo <= uint32_max.

End Geometry.

(** ** The length of the ramp filter ([Filter::Filter]) *)

Module FilterLength.
Import Geometry.

(** [std::ceil(std::log2(float(n)))].  For [n = 0] the logarithm is
    minus infinity and [std::pow(2, -inf)] is [0]; [pow2_ceil_log2]
    below covers that case.  The computation is carried out in exact
    arithmetic, which is what the floating-point evaluation yields for
    every count up to [2^20]. *)
Definition ceil_log2 (n : Z) : Z := Z.log2_up n.

(** [std::pow(2, std::ceil(std::log2(float(n))))] *)
Definition pow2_ceil_log2 (n : Z) : Z :=
  if n =? 0 then 0 else 2 ^ ceil_log2 n.

(** The member initialiser of [filter_length_]. *)
Definition filter_length (geo : Geometry) : Z :=
  2 * pow2_ceil_log2 (det_pixels_column geo).

Definition is_pow2 (z : Z) : Prop := exists k : Z, 0 <= k /\ z = 2 ^ k.

End FilterLength.

(** ** The index buffer of the ramp kernel ([Filter::filterProcessor]) *)

Module FilterIndex.

(** [static_cast<std::int32_t>] of an unsigned value. *)
Definition to_int32 (z : Z) : Z :=
  let m := z mod 2 ^ 32 in
  if m <? 2 ^ 31 then m else m - 2 ^ 32.

(** [auto j = -((filter_length_signed - 2) / 2);]  C++ division
    truncates towards zero. *)
Definition j_start (filter_length : nat) : Z :=
  - ((to_int32 (Z.of_nat filter_length) - 2) ÷ 2).

(** The body of the loop, [j_host_buffer[k] = j], on a host buffer: the
    store faults outside the allocation. *)
Definition store (buf : list Z) (k : nat) (v : Z) : option (list Z) :=
  if decide (k < length buf)%nat then Some (<[k := v]> buf) else None.

(** [for(auto k = 0u; k <= filter_length_; ++k, ++j)]: [n] is the number
    of iterations still to run.  The list of stores (index, value) the
    loop performs, in order. *)
Fixpoint j_loop_stores (n : nat) (k : nat) (j : Z) : list (nat * Z) :=
  match n with
  | O => []
  | S n' => (k, j) :: j_loop_stores n' (S k) (j + 1)
  end.

(** The loop runs for [k = 0, 1, ..., filter_length_]. *)
Definition j_stores (filter_length : nat) : list (nat * Z) :=
  j_loop_stores (S filter_length) 0 (j_start filter_length).

(** The same loop executed on the buffer
    [make_host_ptr<std::int32_t>(filter_length_)]. *)
Fixpoint j_loop (n : nat) (k : nat) (j : Z) (buf : list Z) : option (list Z) :=
  match n with
  | O => Some buf
  | S n' =>
      match store buf k j with
      | Some buf' => j_loop n' (S k) (j + 1) buf'
      | None => None
      end
  end.

Definition make_host_ptr (n : nat) : list Z := replicate n 0.

Definition fill_j_host_buffer (filter_length : nat) : option (list Z) :=
  j_loop (S filter_length) 0 (j_start filter_length)
         (make_host_ptr filter_length).

(** The loop as the comment in [createFilter] describes it: one entry
    per element of the buffer, [k < filter_length_]. *)
Definition fill_j_intended (filter_length : nat) : option (list Z) :=
  j_loop filter_length 0 (j_start filter_length)
         (make_host_ptr filter_length).

End FilterIndex.

(** ** Single-precision arithmetic and device buffers *)

(** The operations the kernels of [CUDAFilter.cu] apply to [float]
    values.  [of_Z] stands for the literals ([1.f], [8.f], ...) and for
    the conversion of an integer to [float]. *)
Class FloatOps (F : Type) : Type := {
  of_Z : Z -> F;
  fmul : F -> F -> F;
  fdiv : F -> F -> F;
  fadd : F -> F -> F;
  powf : F -> F -> F;
  sqrtf : F -> F;
  fabsf : F -> F;
  M_PI : F;
}.

Declare Scope float_scope.
Delimit Scope float_scope with flt.
Infix "*" := fmul : float_scope.
Infix "/" := fdiv : float_scope.
Infix "+" := fadd : float_scope.

(** A buffer with cells addressed by [I]: a 1-D allocation indexed by
    [x], or a pitched 2-D allocation indexed by [(x, y)]. *)
Class Buffer (B I A : Type) : Type := {
  get : B -> I -> option A;
  put : B -> I -> A -> B;
}.

(** A store is seen by a later load of the same cell and by no other. *)
Class BufferLaws (B I A : Type) `{Buffer B I A} : Prop := {
  get_put_eq : forall b i v, is_Some (get b i) -> get (put b i v) i = Some v;
  get_put_ne : forall b i j v, i <> j -> get (put b i v) j = get b j;
}.

Module Cuda.

Section Access.
Context {B I A : Type} `{Buffer B I A}.

(** [p[i]] as an rvalue. *)
Definition read (b : B) (i : I) : option A := get b i.

(** [p[i] = v]. *)
Definition write (b : B) (i : I) (v : A) : option B :=
  match get b i with
  | Some _ => Some (put b i v)
  | None => None
  end.

(** A thread that touches one cell only, the one it is named after:
    [if (guard) cell = g(cell)]. *)
Definition cell_update (guard : I -> bool) (g : I -> A -> option A)
    (i : I) (b : B) : option B :=
  if guard i then
    match get b i with
    | Some old =>
        match g i old with
        | Some v => Some (put b i v)
        | None => None
        end
    | None => None
    end
  else Some b.
End Access.

(** The threads of a launch, run one after the other; a fault in one of
    them is a fault of the launch. *)
Fixpoint for_each {T S : Type} (ts : list T) (thread : T -> S -> option S)
    (s : S) : option S :=
  match ts with
  | [] => Some s
  | t :: ts' =>
      match thread t s with
      | Some s' => for_each ts' thread s'
      | None => None
      end
  end.

(** [ddrf::cuda::launch(n, kernel, ...)] starts at least [n] threads;
    how many exactly depends on the block size the runtime picks, so
    the number of threads is an argument here. *)
Definition launch1D {S : Type} (threads : nat) (kernel : nat -> S -> option S)
    (s : S) : option S :=
  for_each (seq 0 threads) kernel s.

Definition grid (threads_x threads_y : nat) : list (nat * nat) :=
  y ← seq 0 threads_y; (fun x => (x, y)) <$> seq 0 threads_x.

Definition launch2D {S : Type} (threads_x threads_y : nat)
    (kernel : nat * nat -> S -> option S) (s : S) : option S :=
  for_each (grid threads_x threads_y) kernel s.

(** 1-D allocations. *)
#[export] Instance buffer_1D {A : Type} : Buffer (list A) nat A := {
  get b x := b !! x;
  put b x v := <[x := v]> b;
}.

(** Pitched 2-D allocations: [row = base + y * pitch; row[x]].  A row
    holds the elements of the row and not the padding up to the pitch:
    the buffer stands for the accesses that stay inside a row. *)
#[export] Instance buffer_2D {A : Type} :
    Buffer (list (list A)) (nat * nat) A := {
  get b i := match b !! i.2 with Some row => row !! i.1 | None => None end;
  put b i v := alter (fun row => <[i.1 := v]> row) i.2 b;
}.

End Cuda.

(** ** The kernels of the filter stage ([CUDAFilter.cu]) *)

Module FilterKernels.
Import Cuda.

Section Kernels.
Context {F : Type} `{FloatOps F}.
Local Open Scope float_scope.

Local Abbreviation lit := of_Z (only parsing).

(** [__global__ void createFilter(float* r, const std::int32_t* j,
    std::size_t size, float tau)].  [%] is the C++ remainder
    ([Z.rem]). *)
Definition createFilter (j : list Z) (size : nat) (tau : F)
    (x : nat) (r : list F) : option (list F) :=
  if decide (x < size)%nat then
    match read j x with
    | Some jx =>
        if (jx =? 0)%Z then
          write r x ((lit 1 / lit 8) * (lit 1 / powf tau (lit 2)))
        else if (Z.rem jx 2 =? 0)%Z then
          write r x (lit 0)
        else
          write r x (lit (-1) / (lit 2 * powf (of_Z jx) (lit 2)
                                 * powf M_PI (lit 2) * powf tau (lit 2)))
    | None => None
    end
  else Some r.

(** [__global__ void convertProjection(float* output,
    const float* input, width, height, input_pitch, output_pitch,
    filter_length)] *)
Definition convertProjection (input : list (list F))
    (width height filter_length : nat)
    (xy : nat * nat) (output : list (list F)) : option (list (list F)) :=
  let '(x, y) := xy in
  if decide (x < filter_length /\ y < height)%nat then
    if decide (x < width)%nat then
      match read input (x, y) with
      | Some v => write output (x, y) v
      | None => None
      end
    else write output (x, y) (lit 0)
  else Some output.

(** [__global__ void convertFiltered(float* output, const float* input,
    width, height, output_pitch, input_pitch, filter_length)] *)
Definition convertFiltered (input : list (list F))
    (width height filter_length : nat)
    (xy : nat * nat) (output : list (list F)) : option (list (list F)) :=
  let '(x, y) := xy in
  if decide (x < width /\ y < height)%nat then
    match read input (x, y) with
    | Some v => write output (x, y) (v / of_Z (Z.of_nat filter_length))
    | None => None
    end
  else Some output.

(** [cufftComplex]: [x] is the real part, [y] the imaginary part. *)
Definition cufftComplex : Type := (F * F)%type.

(** [__global__ void createK(cufftComplex* data, filter_length, tau)] *)
Definition createK (filter_length : nat) (tau : F)
    (x : nat) (data : list cufftComplex) : option (list cufftComplex) :=
  if decide (x < filter_length)%nat then
    match read data x with
    | Some d =>
        let result :=
          tau * fabsf (sqrtf (powf d.1 (lit 2) + powf d.2 (lit 2))) in
        write data x (result, result)
    | None => None
    end
  else Some data.

(** [__global__ void applyFilter(cufftComplex* data,
    const cufftComplex* filter, filter_length, data_height, pitch)] *)
Definition applyFilter (filter : list cufftComplex)
    (filter_length data_height : nat)
    (xy : nat * nat) (data : list (list cufftComplex)) :
    option (list (list cufftComplex)) :=
  let '(x, y) := xy in
  if decide (x < filter_length /\ y < data_height)%nat then
    match read data (x, y), read filter x with
    | Some row_x, Some filter_x =>
        let a1 := row_x.1 in
        let b1 := row_x.2 in
        let k1 := filter_x.1 in
        let k2 := filter_x.2 in
        write data (x, y) (a1 * k1, b1 * k2)
    | _, _ => None
    end
  else Some data.

(** [tau * |X|], the value [createK] stores. *)
Definition magnitude (tau : F) (X : cufftComplex) : F :=
  tau * fabsf (sqrtf (powf X.1 (lit 2) + powf X.2 (lit 2))).

(** The ramp kernel as the spec writes it:
    r(0) = 1/8 * 1/tau^2, r(j even) = 0,
    r(j odd) = -1 / (2 * j^2 * pi^2 * tau^2). *)
Definition ramp (tau : F) (j : Z) : F :=
  if decide (j = 0) then (lit 1 / lit 8) * (lit 1 / powf tau (lit 2))
  else if Z.even j then lit 0
  else lit (-1) / (lit 2 * powf (of_Z j) (lit 2)
                  * powf M_PI (lit 2) * powf tau (lit 2)).

(** The launches of [Filter::processor] and [Filter::filterProcessor]
    that are plain kernels.  [converted] is the freshly allocated
    buffer of [filter_length_] columns and [img.height()] rows, with
    whatever it holds. *)
Definition pad (threads_x threads_y : nat) (img : list (list F))
    (width height filter_length : nat) (converted : list (list F)) :
    option (list (list F)) :=
  launch2D threads_x threads_y
    (convertProjection img width height filter_length) converted.

Definition unpad (threads_x threads_y : nat) (converted : list (list F))
    (width height filter_length : nat) (img : list (list F)) :
    option (list (list F)) :=
  launch2D threads_x threads_y
    (convertFiltered converted width height filter_length) img.

Definition make_ramp (threads : nat) (j : list Z) (filter_length : nat)
    (tau : F) (buffer : list F) : option (list F) :=
  launch1D threads (createFilter j filter_length tau) buffer.

Definition make_K (threads : nat) (transformed_filter_length : nat)
    (tau : F) (filter : list cufftComplex) : option (list cufftComplex) :=
  launch1D threads (createK transformed_filter_length tau) filter.

Definition multiply (threads_x threads_y : nat)
    (filter : list cufftComplex)
    (transformed_filter_length height : nat)
    (transformed : list (list cufftComplex)) :
    option (list (list cufftComplex)) :=
  launch2D threads_x threads_y
    (applyFilter filter transformed_filter_length height) transformed.
End Kernels.

(** Arithmetic kept symbolic: every operation builds the term it was
    applied to. *)
Inductive fexpr : Type :=
| Lit (z : Z)
| Var (n : nat)
| Pi
| Mul (a b : fexpr)
| Div (a b : fexpr)
| Add (a b : fexpr)
| Pow (a b : fexpr)
| Sqrt (a : fexpr)
| Abs (a : fexpr).

#[export] Instance fexpr_ops : FloatOps fexpr := {
  of_Z := Lit; fmul := Mul; fdiv := Div; fadd := Add;
  powf := Pow; sqrtf := Sqrt; fabsf := Abs; M_PI := Pi;
}.

End FilterKernels.

(** ** The preloader stage ([preloader_stage.cu]) *)

Module Preloader.

Inductive severity : Type := debug | info | fatal.

(** The exceptions of [ddrf::cuda], each with its [what()]. *)
Inductive cuda_exception : Type :=
| bad_alloc (what : string)
| invalid_argument (what : string)
| runtime_error (what : string).

(** [ddafa::stage_runtime_error] ([exception.h]). *)
Inductive exception : Type :=
| stage_runtime_error (what : string).

(** [cudaStream_t]: the default stream, or a stream made by
    [ddrf::cuda::create_concurrent_stream()]. *)
Inductive stream_t : Type :=
| default_stream
| concurrent_stream (id : nat).

(** A [float] as the integer of its bit pattern: the preloader passes
    the angle on and does not compute with it. *)
Definition float : Type := Z.

Inductive host_ptr : Type := host (id : nat) | host_null.
Inductive device_ptr : Type := device (id : nat) | device_null.

(** Modelled from the spec: [projection.h] is not part of the sources
    at hand.  The fields are the ones [preloader_stage::run] reads and
    initialises, in the order of its aggregate initialiser; a
    projection with [valid = false] is the sentinel, and that is what a
    value-initialised projection is. *)
Record projection (Ptr : Type) : Type := mkProjection {
  ptr : Ptr;
  width : nat;
  height : nat;
  idx : nat;
  phi : float;
  valid : bool;
  stream : stream_t;
}.
Arguments mkProjection {Ptr}.
Arguments ptr {Ptr}.
Arguments width {Ptr}.
Arguments height {Ptr}.
Arguments idx {Ptr}.
Arguments phi {Ptr}.
Arguments valid {Ptr}.
Arguments stream {Ptr}.

Definition input_type : Type := projection host_ptr.
Definition output_type : Type := projection device_ptr.

(** [output_type{}] *)
Definition output_type_default : output_type :=
  mkProjection device_null 0 0 0 0 false default_stream.

Inductive event : Type :=
| set_device (device : Z)
| allocate_smart (w h : nat) (p : device_ptr)
| create_concurrent_stream (s : stream_t)
| fill_async (dst : device_ptr) (value : Z) (s : stream_t) (w h : nat)
| copy_async (dst : device_ptr) (src : host_ptr) (s : stream_t) (w h : nat)
| synchronize_stream (s : stream_t)
| output (p : output_type)
| log (sev : severity) (msg : string).

(** What a worker has done so far: the number of calls into the CUDA
    runtime, the handles given out, and everything observable, oldest
    first. *)
Record state : Type := mkState {
  calls : nat;
  next_ptr : nat;
  next_stream : nat;
  trace : list event;
}.

Definition emit (ev : event) (st : state) : state :=
  mkState (calls st) (next_ptr st) (next_stream st) (trace st ++ [ev]).

(** Computations that may throw a CUDA exception. *)
Definition M (A : Type) : Type := state -> (A + cuda_exception) * state.

#[export] Instance M_ret : MRet M := fun A a st => (inl a, st).

#[export] Instance M_bind : MBind M := fun A C k m st =>
  match m st with
  | (inl a, st') => k a st'
  | (inr e, st') => (inr e, st')
  end.

Section Worker.
(** The CUDA runtime: whether the [n]-th call of the worker fails,
    and with what. *)
Variable cuda : nat -> option cuda_exception.

(** A call into the runtime: it throws, or it happens. *)
Definition cuda_call {A : Type} (r : A) (ev : event)
    (next : state -> state) : M A :=
  fun st =>
    let st' := mkState (S (calls st)) (next_ptr st) (next_stream st)
                       (trace st) in
    match cuda (calls st) with
    | Some e => (inr e, st')
    | None => (inl r, emit ev (next st'))
    end.

Definition do_set_device (d : Z) : M unit :=
  cuda_call tt (set_device d) id.

(** [pool_.allocate_smart(w, h)], seen as the handle it returns: handles
    are numbered in the order of the calls.  The pool behind the
    handles, with its limit, its returned buffers and its waiting, is in
    [PooledPreloader]. *)
Definition do_allocate_smart (w h : nat) : M device_ptr :=
  fun st =>
    cuda_call (device (next_ptr st))
      (allocate_smart w h (device (next_ptr st)))
      (fun s => mkState (calls s) (S (next_ptr s)) (next_stream s) (trace s))
      st.

Definition do_create_concurrent_stream : M stream_t :=
  fun st =>
    cuda_call (concurrent_stream (next_stream st))
      (create_concurrent_stream (concurrent_stream (next_stream st)))
      (fun s => mkState (calls s) (next_ptr s) (S (next_stream s)) (trace s))
      st.

Definition do_fill (dst : device_ptr) (v : Z) (s : stream_t) (w h : nat) : M unit :=
  cuda_call tt (fill_async dst v s w h) id.

Definition do_copy (dst : device_ptr) (src : host_ptr) (s : stream_t)
    (w h : nat) : M unit :=
  cuda_call tt (copy_async dst src s w h) id.

Definition do_synchronize_stream (s : stream_t) : M unit :=
  cuda_call tt (synchronize_stream s) id.

(** [output_(p)]: the push into the queue of the next stage. *)
Definition output_ (p : output_type) : M unit :=
  fun st => (inl tt, emit (output p) st).

Definition BOOST_LOG_TRIVIAL (sev : severity) (msg : string) : M unit :=
  fun st => (inl tt, emit (log sev msg) st).

(** The body of the loop for a projection that is not the sentinel. *)
Definition upload (p : input_type) : M unit :=
  dev_p ← do_allocate_smart (width p) (height p);
  stream ← do_create_concurrent_stream;
  do_fill dev_p 0 stream (width p) (height p);;
  do_copy dev_p (ptr p) stream (width p) (height p);;
  do_synchronize_stream stream;;
  output_ (mkProjection dev_p (width p) (height p) (idx p) (phi p)
                        true stream).

(** How the loop ends: [break], with the rest of the input still in
    the queue, or never, when [input_()] waits for an item that does
    not come. *)
Inductive loop_end : Type :=
| broke (rest : list input_type)
| waiting.

(** [while(true)], over the items [input_()] delivers. *)
Fixpoint loop (input : list input_type) : M loop_end :=
  match input with
  | [] => mret waiting
  | p :: rest =>
      if negb (valid p) then mret (broke rest)
      else upload p;; loop rest
  end.

(** From the loop to the end of the [try] block. *)
Definition after_loop (e : loop_end) : M loop_end :=
  match e with
  | broke rest =>
      output_ output_type_default;;
      BOOST_LOG_TRIVIAL info "Uploaded all projections to the device(s)";;
      mret (broke rest)
  | waiting => mret waiting
  end.

Definition worker (input : list input_type) : M loop_end :=
  e ← loop input; after_loop e.

Definition try_block (device_ : Z) (input : list input_type) : M loop_end :=
  do_set_device device_;; worker input.

(** The message of the handler that catches [e]. *)
Definition handler_message (e : cuda_exception) : string :=
  match e with
  | bad_alloc what =>
      "preloader_stage::run() encountered a bad_alloc: " ++ what
  | invalid_argument what =>
      "preloader_stage::run() passed an invalid argument to the CUDA runtime: "
      ++ what
  | runtime_error what =>
      "preloader_stage::run() caused a CUDA runtime error: " ++ what
  end%string.

Inductive result : Type :=
| returns (rest : list input_type)
| throws (e : exception)
| blocks.

Definition sre : exception :=
  stage_runtime_error "preloader_stage::run() failed".

(** [preloader_stage::run] *)
Definition run (device_ : Z) (input : list input_type) (st : state) :
    result * state :=
  match try_block device_ input st with
  | (inl (broke rest), st') => (returns rest, st')
  | (inl waiting, st') => (blocks, st')
  | (inr e, st') => (throws sre, emit (log fatal (handler_message e)) st')
  end.
End Worker.

Definition is_sentinel_output (ev : event) : bool :=
  match ev with
  | output p => negb (valid p)
  | _ => false
  end.

(** What one uploaded projection leaves in the trace. *)
Definition upload_events (p : input_type) (d s : nat) : list event :=
  [ allocate_smart (width p) (height p) (device d);
    create_concurrent_stream (concurrent_stream s);
    fill_async (device d) 0 (concurrent_stream s) (width p) (height p);
    copy_async (device d) (ptr p) (concurrent_stream s) (width p) (height p);
    synchronize_stream (concurrent_stream s);
    output (mkProjection (device d) (width p) (height p) (idx p) (phi p)
                         true (concurrent_stream s)) ].

(** The same for a run of projections, with the handles counted up. *)
Fixpoint uploads (ps : list input_type) (d s : nat) : list event :=
  match ps with
  | [] => []
  | p :: ps' => upload_events p d s ++ uploads ps' (S d) (S s)
  end.

Definition sentinel_outputs (tr : list event) : list event :=
  List.filter is_sentinel_output tr.

Definition initial : state := mkState 0 0 0 [].

Definition never_fails : nat -> option cuda_exception := fun _ => None.

End Preloader.

(** ** The legacy filter stage's handling of items ([Filter::process]) *)

Module FilterProcess.

(** Modelled from the spec: the image class of the legacy filter
    ([Filter.h], [Image.h]) is not part of the sources at hand.  An
    image knows whether it is valid and the device it lives on; a
    value-initialised image is the sentinel. *)
Record image : Type := mkImage {
  valid : bool;
  device : Z;
  index : nat;
}.

(** [output_type()] *)
Definition output_type_default : image := mkImage false 0 0.

(** A thread started on [Filter::processor(img, device)].  It ends with
    [results_.push(std::move(img))]. *)
Record thread : Type := mkThread {
  thread_img : image;
  thread_device : Z;
}.

Record Filter : Type := mkFilter {
  devices_ : Z;
  processor_threads_ : list thread;
  (* the threads that have not pushed their result yet *)
  running : list thread;
  results_ : list image;
}.

(** One of the running threads reaches its [results_.push]. *)
Definition complete (n : nat) (f : Filter) : Filter :=
  match running f !! n with
  | Some t =>
      mkFilter (devices_ f) (processor_threads_ f)
               (delete n (running f)) (results_ f ++ [thread_img t])
  | None => f
  end.

(** [for(auto&& t : processor_threads_) t.join();] lets every running
    thread finish; [order] is the order in which their results land. *)
Definition join_all (order : list thread -> list thread) (f : Filter) : Filter :=
  mkFilter (devices_ f) (processor_threads_ f) []
           (results_ f ++ (thread_img <$> order (running f))).

(** [Filter::finish], when every thread of [processor_threads_] can be
    joined; [FilterJoin.finish] adds the case that one cannot. *)
Definition finish (order : list thread -> list thread) (f : Filter) : Filter :=
  let f' := join_all order f in
  mkFilter (devices_ f') (processor_threads_ f') (running f')
           (results_ f' ++ [output_type_default]).

(** The loop [for(auto i = 0; i < devices_; ++i)] of [Filter::process]:
    a thread is started for the device the image is on. *)
Definition spawn (img : image) (f : Filter) : Filter :=
  fold_left
    (fun f i =>
       if decide (device img = i) then
         let t := mkThread img i in
         mkFilter (devices_ f) (processor_threads_ f ++ [t])
                  (running f ++ [t]) (results_ f)
       else f)
    (seqZ 0 (devices_ f)) f.

(** [Filter::process] *)
Definition process (order : list thread -> list thread) (img : image)
    (f : Filter) : Filter :=
  if negb (valid img) then finish order f
  else spawn img f.


(** Threads are started for valid images only. *)
Definition running_valid (f : Filter) : Prop :=
  Forall (fun t => valid (thread_img t) = true) (running f).

End FilterProcess.

(** ** The sink of the legacy pipeline ([SinkStage.h]) *)

Module SinkStage.

(** Modelled from the spec: [Image.h] is not part of the sources at
    hand.  An image is valid or the sentinel; [slice_index] is the
    index of the slice it holds. *)
Record image : Type := mkImage {
  valid : bool;
  slice_index : nat;
}.

Inductive event : Type :=
| saveImage (img : image) (path : string).

Record SinkStage : Type := mkSinkStage {
  target_dir_ : string;
}.

(** [SinkStage(std::string path)] *)
Definition construct (path : string) : SinkStage := mkSinkStage path.

Inductive result : Type :=
| returns (rest : list image)
| blocks.

(** [SinkStage::run]: [input_queue_.take()] delivers the items of
    [input]. *)
Fixpoint run (this : SinkStage) (input : list image) : result * list event :=
  match input with
  | [] => (blocks, [])
  | img :: rest =>
      if valid img then
        let '(r, evs) := run this rest in
        (r, saveImage img "/home/ufxray/Schreibtisch/Feldkamp/out.tif" :: evs)
      else (returns rest, [])
  end.

Definition path_of (ev : event) : string :=
  match ev with saveImage _ path => path end.

(** The file name the spec gives a slice:
    [{prefix}_{slice_index:06d}.{ext}], under the configured
    directory. *)
Definition digit (n : nat) : string :=
  String (Ascii.ascii_of_nat (48 + n mod 10)) EmptyString.

Fixpoint decimal (width : nat) (n : nat) : string :=
  match width with
  | O => EmptyString
  | S w => (decimal w (n / 10) ++ digit n)%string
  end.

Definition slice_file (dir prefix : string) (slice_index : nat) (ext : string) :
    string :=
  (dir ++ "/" ++ prefix ++ "_" ++ decimal 6 slice_index ++ "." ++ ext)%string.

End SinkStage.

(** ** The driver ([main.cpp]) *)

Module Main.

(** The objects [main] shares by address: the task queue and the
    sink. *)
Inductive ref : Type := address (a : nat).

Inductive stage : Type :=
| source_stage
| preloader_stage (input_limit parallel_projections : nat) (device : Z)
| weighting_stage (input_limit : nat) (device : Z)
| filter_stage (input_limit : nat) (device : Z)
| reconstruction_stage (input_limit : nat) (device : Z)
| sink_stage (sink : ref).

(** A [task_pipeline] once [launch_pipeline] is done with it. *)
Record pipeline : Type := mkPipeline {
  queue : ref;
  connected : list stage;   (* the arguments of [pipeline.connect] *)
  started : list stage;     (* the arguments of [pipeline.run] *)
}.

(** [launch_pipeline(queue, device, sink, input_limit,
    parallel_projections)]; [None] is the [nullptr] queue and the early
    return. *)
Definition launch_pipeline (queue : option ref) (device : Z) (sink : ref)
    (input_limit parallel_projections : nat) : option pipeline :=
  match queue with
  | None => None
  | Some q =>
      let source := source_stage in
      let preloader := preloader_stage input_limit parallel_projections device in
      let weighting := weighting_stage input_limit device in
      let filter := filter_stage input_limit device in
      let reconstruction := reconstruction_stage input_limit device in
      let stages := [source; preloader; weighting; filter; reconstruction;
                     sink_stage sink] in
      Some (mkPipeline q stages stages)
  end.

Record program_options : Type := mkOptions {
  enable_io : bool;
  output_path : string;
  prefix : string;
}.

Definition parallel_projections : nat := 5.
Definition input_limit : nat := 1.

(** The launch loop of [main]: one [std::async] per device, in order;
    [async_throws d] says that the call for device [d] throws, which ends
    the loop. *)
Fixpoint launch_all (async_throws : Z -> bool) (ds : list Z)
    (task_queue sink : ref) : list (option pipeline) :=
  match ds with
  | [] => []
  | d :: ds' =>
      if async_throws d then []
      else launch_pipeline (Some task_queue) d sink
                           input_limit parallel_projections
           :: launch_all async_throws ds' task_queue sink
  end.

(** The pipelines [main] launches, one future each, in order.
    [geometry_throws] says that [calculate_volume_geometry] or
    [create_subvolume_information] throws, [startup_throws] that one of
    the steps between [if(po.enable_io)] and the launch loop does
    ([make_tasks], the task queue, [get_device_count], the construction
    of the sink): either way the [try] block is left before the loop.
    [devices] is what [ddrf::cuda::get_device_count()] returns;
    [task_queue] and [sink] are the two objects of [main]. *)
Definition main (po : program_options) (geometry_throws startup_throws : bool)
    (async_throws : Z -> bool) (devices : Z) (task_queue sink : ref) :
    list (option pipeline) :=
  if geometry_throws then []
  else if enable_io po then
    if startup_throws then []
    else launch_all async_throws (seqZ 0 devices) task_queue sink
  else [].

Definition stage_order (p : pipeline) : list string :=
  (fun s => match s with
            | source_stage => "Source"
            | preloader_stage _ _ _ => "Preloader"
            | weighting_stage _ _ => "Weighting"
            | filter_stage _ _ => "Filter"
            | reconstruction_stage _ _ => "Reconstruction"
            | sink_stage _ => "Sink"
            end%string) <$> connected p.

End Main.

(** ** Sample inputs *)

Module Samples.

(** A projection of 4 by 2 pixels, the seventh of its scan, and the
    sentinel behind it. *)
Definition projection_7 : Preloader.input_type :=
  Preloader.mkProjection (Preloader.host 0) 4 2 7 30 true
                         Preloader.default_stream.

Definition sentinel : Preloader.input_type :=
  Preloader.mkProjection Preloader.host_null 0 0 0 0 false
                         Preloader.default_stream.

(** A runtime whose second call, the first allocation, fails. *)
Definition failing_allocation (n : nat) : option Preloader.cuda_exception :=
  if (n =? 1)%nat then Some (Preloader.bad_alloc "out of memory") else None.


(** A row of three samples and buffers of two and of four columns. *)
Definition row_3 : list (list FilterKernels.fexpr) :=
  [[FilterKernels.Var 0; FilterKernels.Var 1; FilterKernels.Var 2]].

Definition buffer_2 : list (list FilterKernels.fexpr) :=
  [[FilterKernels.Var 10; FilterKernels.Var 11]].

Definition buffer_4 : list (list FilterKernels.fexpr) :=
  [[FilterKernels.Var 10; FilterKernels.Var 11;
    FilterKernels.Var 12; FilterKernels.Var 13]].

Definition io_disabled : Main.program_options :=
  Main.mkOptions false "/data/volume" "vol".

Definition io_enabled : Main.program_options :=
  Main.mkOptions true "/data/volume" "vol".

End Samples.

(** ** The work of one thread of the legacy filter ([Filter::processor]) *)

Module FilterProcessor.
Import Cuda FilterKernels.

Section Processor.
Context {F : Type} `{FloatOps F}.

(** [ddrf::cuda::launch(n, ...)] starts [launch_size n] threads along a
    dimension of [n] elements. *)
Variable launch_size : nat -> nat.

(** cuFFT: the real-to-complex transform of one signal and the
    complex-to-real transform back to a signal of the given length.  The
    batched plans of [processor] apply them to every row. *)
Variable cufftExecR2C : list F -> list (@cufftComplex F).
Variable cufftExecC2R : nat -> list (@cufftComplex F) -> list F.



End Processor.

End FilterProcessor.

(** ** What the preloader pushes *)

Module PreloaderOutputs.
Import Preloader.

(** The projections pushed downstream, oldest first. *)
Definition outputs (tr : list event) : list output_type :=
  omap (fun ev => match ev with output p => Some p | _ => None end) tr.

(** The projection [upload] pushes for [p] when its buffer is [d] and its
    stream is [s]. *)
Definition forward (p : input_type) (d s : nat) : output_type :=
  mkProjection (device d) (width p) (height p) (idx p) (phi p) true
               (concurrent_stream s).

Fixpoint forwards (ps : list input_type) (d s : nat) : list output_type :=
  match ps with
  | [] => []
  | p :: ps' => forward p d s :: forwards ps' (S d) (S s)
  end.

End PreloaderOutputs.

(** ** The legacy filter under a schedule *)

Module FilterSchedule.
Import FilterProcess.

(** [Filter::Filter], as far as [process] is concerned: no thread, no
    result. *)
Definition construct (devices : Z) : Filter := mkFilter devices [] [] [].

(** The filter with one more thread, at work on [img] on the device of
    [img]. *)
Definition with_thread (img : image) (f : Filter) : Filter :=
  mkFilter (devices_ f)
           (processor_threads_ f ++ [mkThread img (device img)])
           (running f ++ [mkThread img (device img)]) (results_ f).





(** [Filter::wait]: [results_.take()], which waits ([None]) on an empty
    queue. *)
Definition wait (f : Filter) : option (image * Filter) :=
  match results_ f with
  | [] => None
  | img :: rest =>
      Some (img, mkFilter (devices_ f) (processor_threads_ f) (running f) rest)
  end.

End FilterSchedule.

(** ** The device master ([CUDAMaster.cu]) *)

Module CUDAMaster.

(** [std::to_string] and [operator<<] of an [int]. *)
Definition to_string (z : Z) : string := NilZero.string_of_int (Z.to_int z).

(** The fields of [cudaDeviceProp] the constructor reads. *)
Record cudaDeviceProp : Type := mkProp {
  concurrentKernels : Z;
  major : Z;
  minor : Z;
}.

Record CUDAMaster : Type := mkMaster {
  device_ : Z;
  number_of_workers_ : Z;
}.

(** [std::runtime_error] *)
Inductive exception : Type :=
| runtime_error (what : string).

(** The number of resident grids, the [switch] of the constructor. *)
Definition resident_grids (device_ : Z) (properties : cudaDeviceProp) :
    Z + exception :=
  if major properties =? 2 then inl 16
  else if major properties =? 3 then
    if minor properties =? 0 then inl 16
    else if minor properties =? 2 then inl 4
    else if (minor properties =? 5) || (minor properties =? 7) then inl 32
    else inr (runtime_error
                ("CUDAMaster: Unsupported Compute Capability on device #"
                 ++ to_string device_
                 ++ " (Compute Capability is 3."
                 ++ to_string (minor properties) ++ ")"))
  else if major properties =? 5 then
    if (minor properties =? 0) || (minor properties =? 2) then inl 32
    else if minor properties =? 3 then inl 16
    else inr (runtime_error
                ("CUDAMaster: Unsupported Compute Capability on device #"
                 ++ to_string device_
                 ++ " (Compute Capability is 5."
                 ++ to_string (minor properties) ++ ")"))
  else inr (runtime_error
              ("CUDAMaster: Unsupported Compute Capability on device #"
               ++ to_string device_
               ++ " (Compute Capability is "
               ++ to_string (major properties) ++ "."
               ++ to_string (minor properties) ++ ")"))%string.

(** [CUDAMaster::CUDAMaster(int device_num)], given the properties
    [cudaGetDeviceProperties] reports: the object or the exception, and
    the lines written to [std::cout]. *)
Definition constructor (device_num : Z) (properties : cudaDeviceProp) :
    (CUDAMaster + exception) * list string :=
  let device_ := device_num in
  let first :=
    (if (concurrentKernels properties =? 0)%Z then
       "CUDAMaster: WARNING: Device #" ++ to_string device_
       ++ " does not support concurrent kernels."
     else
       "CUDAMaster: Device #" ++ to_string device_
       ++ " supports concurrent kernels.")%string in
  match resident_grids device_ properties with
  | inl number_of_workers_ =>
      (inl (mkMaster device_ number_of_workers_),
       [first;
        ("CUDAMaster: Device #" ++ to_string device_ ++ " supports "
         ++ to_string number_of_workers_ ++ " concurrent kernels.")%string;
        ("CUDAMaster for device #" ++ to_string device_
         ++ " constructed.")%string])
  | inr e => (inr e, [first])
  end.

(** [CUDAMaster::workerCount] *)
Definition workerCount (this : CUDAMaster) : Z := number_of_workers_ this.

(** [CUDAMaster::CUDAMaster(CUDAMaster&& other)] *)
Definition move (other : CUDAMaster) : CUDAMaster :=
  mkMaster (device_ other) (number_of_workers_ other).

(** The compute capabilities the constructor knows. *)
Definition supported (properties : cudaDeviceProp) : Prop :=
  major properties = 2 \/
  (major properties = 3 /\
   (minor properties = 0 \/ minor properties = 2 \/
    minor properties = 5 \/ minor properties = 7)) \/
  (major properties = 5 /\
   (minor properties = 0 \/ minor properties = 2 \/ minor properties = 3)).

(** The line about concurrent kernels, the first one printed. *)
Definition concurrency_line (device_ : Z) (properties : cudaDeviceProp) :
    string :=
  (if (concurrentKernels properties =? 0)%Z then
     "CUDAMaster: WARNING: Device #" ++ to_string device_
     ++ " does not support concurrent kernels."
   else
     "CUDAMaster: Device #" ++ to_string device_
     ++ " supports concurrent kernels.")%string.

Definition unsupported_message (device_ : Z) (properties : cudaDeviceProp) :
    string :=
  ("CUDAMaster: Unsupported Compute Capability on device #"
   ++ to_string device_ ++ " (Compute Capability is "
   ++ to_string (major properties) ++ "."
   ++ to_string (minor properties) ++ ")")%string.

End CUDAMaster.

(** ** The end of [main] *)

Module MainExit.

(** The exceptions of [exception.h] that [main] catches. *)
Inductive exception : Type :=
| stage_construction_error (what : string)
| stage_runtime_error (what : string).

Inductive severity : Type := info | fatal.

Definition EXIT_FAILURE : Z := 1.

(** [for(auto&& f : futures) f.get();]: a future holds the exception its
    pipeline ended with, if any; the first one found is rethrown. *)
Fixpoint get_all (futures : list (option exception)) : option exception :=
  match futures with
  | [] => None
  | Some e :: _ => Some e
  | None :: rest => get_all rest
  end.

(** [std::setfill('0') << std::setw(2)] on the next item. *)
Definition setw2 (s : string) : string :=
  (if (String.length s <? 2)%nat
   then String.concat "" (List.repeat "0" (2 - String.length s)) ++ s
   else s)%string.

(** The text after "Time elapsed: ".  A duration is a number of ticks of
    the clock, [rate] of them to the second; [duration_cast] truncates. *)
Definition elapsed (rate ticks : Z) : string :=
  let seconds := ticks ÷ rate in
  let minutes := ticks ÷ (60 * rate) in
  (CUDAMaster.to_string minutes ++ ":"
   ++ setw2 (CUDAMaster.to_string (Z.rem seconds 60)))%string.

(** What the [try] block of [main] ends with.  [geometry] is what the
    computation of the volume geometry and of the subvolumes throws,
    [startup] what the steps between [if(po.enable_io)] and the launch of
    the pipelines throw, [futures] are the pipelines launched. *)
Definition thrown (enable_io : bool) (geometry startup : option exception)
    (futures : list (option exception)) : option exception :=
  match geometry with
  | Some e => Some e
  | None =>
      if enable_io then
        match startup with
        | Some e => Some e
        | None => get_all futures
        end
      else None
  end.

(** The handlers of [main] and its return: the exit status and the
    log. *)
Definition finish (enable_io : bool) (geometry startup : option exception)
    (futures : list (option exception)) (rate ticks : Z) :
    Z * list (severity * string) :=
  match thrown enable_io geometry startup futures with
  | Some (stage_construction_error what) =>
      (EXIT_FAILURE,
       [(fatal, "main(): Pipeline construction failed: " ++ what);
        (fatal, "Aborting.")])
  | Some (stage_runtime_error what) =>
      (EXIT_FAILURE,
       [(fatal, "main(): Pipeline execution failed: " ++ what);
        (fatal, "Aborting.")])
  | None =>
      (0, if enable_io
          then [(info, "Reconstruction finished. Time elapsed: "
                       ++ elapsed rate ticks ++ " minutes")]
          else [])
  end%string.

(** The first line a handler logs for [e]. *)
Definition failure_line (e : exception) : string :=
  match e with
  | stage_construction_error what =>
      "main(): Pipeline construction failed: " ++ what
  | stage_runtime_error what =>
      "main(): Pipeline execution failed: " ++ what
  end%string.

(** Two decimal digits. *)
Definition two_digits (s : Z) : string :=
  (CUDAMaster.to_string (s / 10) ++ CUDAMaster.to_string (s mod 10))%string.

End MainExit.

(** ** The legacy filter and threads that were joined before *)

Module FilterJoin.
Import FilterProcess.

(** [std::system_error], which [std::thread::join] throws for a thread
    that is not joinable. *)
Inductive exception : Type := system_error.

(** A filter and the number of threads of [processor_threads_], its
    oldest, that an earlier [finish] has joined. *)
Record Filter : Type := mkJoin {
  filter : FilterProcess.Filter;
  joined : nat;
}.

Definition construct (devices : Z) : Filter :=
  mkJoin (mkFilter devices [] [] []) 0.

(** [Filter::finish]: the loop over [processor_threads_] throws at the
    first thread that was joined before, and nothing is pushed; else all
    threads are joined and the sentinel is pushed. *)
Definition finish (order : list thread -> list thread) (f : Filter) :
    Filter + exception :=
  if (0 <? joined f)%nat then inr system_error
  else inl (mkJoin (FilterProcess.finish order (filter f))
                   (length (processor_threads_ (filter f)))).

(** [Filter::process] *)
Definition process (order : list thread -> list thread) (img : image)
    (f : Filter) : Filter + exception :=
  if negb (valid img) then finish order f
  else inl (mkJoin (spawn img (filter f)) (joined f)).

End FilterJoin.

(** ** What the sink pushes *)

Module SinkOutput.
Import SinkStage.


End SinkOutput.

(** ** The end of [main], with exceptions it does not catch *)

Module MainStatus.
Import MainExit.

(** What a step or a pipeline can end with: one of the two exceptions
    [main] catches, or any other (from [std::async], from the runtime),
    which leaves [main] uncaught. *)
Inductive failure : Type :=
| stage_error (e : exception)
| other_exception.

Inductive level : Type := log_info | log_error | log_fatal.

Fixpoint get_all (futures : list (option failure)) : option failure :=
  match futures with
  | [] => None
  | Some e :: _ => Some e
  | None :: rest => get_all rest
  end.

Definition thrown (enable_io : bool) (geometry startup : option failure)
    (futures : list (option failure)) : option failure :=
  match geometry with
  | Some e => Some e
  | None =>
      if enable_io then
        match startup with
        | Some e => Some e
        | None => get_all futures
        end
      else None
  end.

Definition SIGABRT : Z := 6.

(** The exit status and the log of [main].  An exception no handler
    catches ends in [std::terminate], that is in [SIGABRT], for which
    [main] has installed [signal_handler]: it logs the signal and calls
    [std::exit(EXIT_FAILURE)]. *)
Definition finish (enable_io : bool) (geometry startup : option failure)
    (futures : list (option failure)) (rate ticks : Z) :
    Z * list (level * string) :=
  match thrown enable_io geometry startup futures with
  | Some (stage_error e) =>
      (EXIT_FAILURE,
       [(log_fatal, failure_line e); (log_fatal, "Aborting.")])
  | Some other_exception =>
      (EXIT_FAILURE,
       [(log_error, "Signal " ++ CUDAMaster.to_string SIGABRT)])
  | None =>
      (0, if enable_io
          then [(log_info, "Reconstruction finished. Time elapsed: "
                           ++ elapsed rate ticks ++ " minutes")]
          else [])
  end%string.

End MainStatus.

(** ** The preloader with its pool *)

Module PooledPreloader.

(** Modelled from the spec: [ddrf::pool_allocator] is not part of the
    sources at hand.  The spec has it hold up to [limit] allocations,
    created on first use; a handle that is dropped returns its buffer to
    the pool; [allocate_smart] re-issues a returned buffer without
    allocating, allocates while fewer than [limit] buffers exist, and
    otherwise waits until a buffer is returned.  All projections of a
    scan have one size, so every returned buffer fits. *)
Record pool : Type := mkPool {
  limit : nat;
  created : nat;
  free : list nat;
}.

Record state : Type := mkState {
  calls : nat;          (* calls into the CUDA runtime *)
  allocations : nat;    (* calls of [allocate_smart] that handed out a buffer *)
  pool_ : pool;
  next_stream : nat;
  trace : list Preloader.event;
}.

Inductive outcome (A : Type) : Type :=
| done (a : A)
| threw (e : Preloader.cuda_exception)
| waits.
Arguments done {A}.
Arguments threw {A}.
Arguments waits {A}.

Definition M (A : Type) : Type := state -> outcome A * state.

#[export] Instance M_ret : MRet M := fun A a st => (done a, st).

#[export] Instance M_bind : MBind M := fun A C k m st =>
  match m st with
  | (done a, st') => k a st'
  | (threw e, st') => (threw e, st')
  | (waits, st') => (waits, st')
  end.

Definition emit (ev : Preloader.event) (st : state) : state :=
  mkState (calls st) (allocations st) (pool_ st) (next_stream st)
          (trace st ++ [ev]).

Section Worker.
(** The CUDA runtime, as in [Preloader], and the stages downstream:
    [returned n] are the buffers whose handles they have dropped by the
    time of the allocation after [n] others. *)
Variable cuda : nat -> option Preloader.cuda_exception.
Variable returned : nat -> list nat.

Definition cuda_call {A : Type} (r : A) (ev : Preloader.event)
    (next : state -> state) : M A :=
  fun st =>
    let st' := mkState (S (calls st)) (allocations st) (pool_ st)
                       (next_stream st) (trace st) in
    match cuda (calls st) with
    | Some e => (threw e, st')
    | None => (done r, emit ev (next st'))
    end.

(** [pool_.allocate_smart(w, h)] *)
Definition do_allocate_smart (w h : nat) : M Preloader.device_ptr :=
  fun st =>
    let p := pool_ st in
    match free p ++ returned (allocations st) with
    | b :: rest =>
        (done (Preloader.device b),
         emit (Preloader.allocate_smart w h (Preloader.device b))
           (mkState (calls st) (S (allocations st))
                    (mkPool (limit p) (created p) rest)
                    (next_stream st) (trace st)))
    | [] =>
        if (created p <? limit p)%nat then
          cuda_call (Preloader.device (created p))
            (Preloader.allocate_smart w h (Preloader.device (created p)))
            (fun s => mkState (calls s) (S (allocations s))
                              (mkPool (limit p) (S (created p)) [])
                              (next_stream s) (trace s))
            st
        else (waits, st)
    end.

Definition do_set_device (d : Z) : M unit :=
  cuda_call tt (Preloader.set_device d) id.

Definition do_create_concurrent_stream : M Preloader.stream_t :=
  fun st =>
    cuda_call (Preloader.concurrent_stream (next_stream st))
      (Preloader.create_concurrent_stream
         (Preloader.concurrent_stream (next_stream st)))
      (fun s => mkState (calls s) (allocations s) (pool_ s)
                        (S (next_stream s)) (trace s))
      st.

Definition do_fill (dst : Preloader.device_ptr) (v : Z)
    (s : Preloader.stream_t) (w h : nat) : M unit :=
  cuda_call tt (Preloader.fill_async dst v s w h) id.

Definition do_copy (dst : Preloader.device_ptr) (src : Preloader.host_ptr)
    (s : Preloader.stream_t) (w h : nat) : M unit :=
  cuda_call tt (Preloader.copy_async dst src s w h) id.

Definition do_synchronize_stream (s : Preloader.stream_t) : M unit :=
  cuda_call tt (Preloader.synchronize_stream s) id.

Definition output_ (p : Preloader.output_type) : M unit :=
  fun st => (done tt, emit (Preloader.output p) st).

Definition BOOST_LOG_TRIVIAL (sev : Preloader.severity) (msg : string) :
    M unit :=
  fun st => (done tt, emit (Preloader.log sev msg) st).

(** The body of the loop for a projection that is not the sentinel. *)
Definition upload (p : Preloader.input_type) : M unit :=
  dev_p ← do_allocate_smart (Preloader.width p) (Preloader.height p);
  stream ← do_create_concurrent_stream;
  do_fill dev_p 0 stream (Preloader.width p) (Preloader.height p);;
  do_copy dev_p (Preloader.ptr p) stream
          (Preloader.width p) (Preloader.height p);;
  do_synchronize_stream stream;;
  output_ (Preloader.mkProjection dev_p (Preloader.width p)
             (Preloader.height p) (Preloader.idx p) (Preloader.phi p)
             true stream).

(** [while(true)], over the items [input_()] delivers. *)
Fixpoint loop (input : list Preloader.input_type) : M Preloader.loop_end :=
  match input with
  | [] => mret Preloader.waiting
  | p :: rest =>
      if negb (Preloader.valid p) then mret (Preloader.broke rest)
      else upload p;; loop rest
  end.

Definition after_loop (e : Preloader.loop_end) : M Preloader.loop_end :=
  match e with
  | Preloader.broke rest =>
      output_ Preloader.output_type_default;;
      BOOST_LOG_TRIVIAL Preloader.info
        "Uploaded all projections to the device(s)";;
      mret (Preloader.broke rest)
  | Preloader.waiting => mret Preloader.waiting
  end.

Definition try_block (device_ : Z) (input : list Preloader.input_type) :
    M Preloader.loop_end :=
  do_set_device device_;; e ← loop input; after_loop e.

Inductive result : Type :=
| returns (rest : list Preloader.input_type)
| throws (e : Preloader.exception)
| waits_for_input
| waits_for_buffer.

(** [preloader_stage::run] *)
Definition run (device_ : Z) (input : list Preloader.input_type)
    (st : state) : result * state :=
  match try_block device_ input st with
  | (done (Preloader.broke rest), st') => (returns rest, st')
  | (done Preloader.waiting, st') => (waits_for_input, st')
  | (waits, st') => (waits_for_buffer, st')
  | (threw e, st') =>
      (throws Preloader.sre,
       emit (Preloader.log Preloader.fatal (Preloader.handler_message e)) st')
  end.
End Worker.

(** [preloader_stage(pool_limit, device)]: a pool of [pool_limit]
    buffers, none created yet. *)
Definition initial (pool_limit : nat) : state :=
  mkState 0 0 (mkPool pool_limit 0 []) 0 [].

(** Stages downstream that keep every projection. *)
Definition nothing_returned : nat -> list nat := fun _ => [].

(** The events of one turn of the loop behind the allocation. *)
Definition turn_events (p : Preloader.input_type) (b s : nat) :
    list Preloader.event :=
  [ Preloader.create_concurrent_stream (Preloader.concurrent_stream s);
    Preloader.fill_async (Preloader.device b) 0
      (Preloader.concurrent_stream s) (Preloader.width p) (Preloader.height p);
    Preloader.copy_async (Preloader.device b) (Preloader.ptr p)
      (Preloader.concurrent_stream s) (Preloader.width p) (Preloader.height p);
    Preloader.synchronize_stream (Preloader.concurrent_stream s);
    Preloader.output
      (Preloader.mkProjection (Preloader.device b) (Preloader.width p)
         (Preloader.height p) (Preloader.idx p) (Preloader.phi p) true
         (Preloader.concurrent_stream s)) ].

End PooledPreloader.

(** ** More sample inputs *)

Module MoreSamples.
Import FilterKernels.



Definition ramp_4 : list fexpr := [Var 20; Var 21; Var 22; Var 23].

Definition image_elsewhere : FilterProcess.image :=
  FilterProcess.mkImage true 3 4.


(** A device of compute capability 3.5 and one of 6.1. *)
Definition kepler : CUDAMaster.cudaDeviceProp := CUDAMaster.mkProp 1 3 5.
Definition pascal : CUDAMaster.cudaDeviceProp := CUDAMaster.mkProp 1 6 1.

End MoreSamples.

(** * Properties *)

Section FilterLengthFacts.
Import Geometry FilterLength.

Lemma pow2_ceil_log2_ge (n : Z) : 0 <= n -> n <= pow2_ceil_log2 n.
Proof.
  intros Hn. unfold pow2_ceil_log2, ceil_log2.
  destruct (Z.eqb_spec n 0) as [->|Hne]; [lia|].
  destruct (Z.eq_dec n 1) as [->|Hn1]; [reflexivity|].
  apply Z.log2_up_spec. lia.
Qed.

Lemma pow2_ceil_log2_pow2 (n : Z) :
  1 <= n -> exists k, 0 <= k /\ pow2_ceil_log2 n = 2 ^ k.
Proof.
  intros Hn. unfold pow2_ceil_log2, ceil_log2.
  destruct (Z.eqb_spec n 0) as [->|Hne]; [exfalso; lia|].
  exists (Z.log2_up n). split; [apply Z.log2_up_nonneg | reflexivity].
Qed.

(** What the constructor does guarantee: a power of two that is at
    least twice the number of detector rows. *)
Lemma filter_length_rows (geo : Geometry) :
  1 <= n_v geo ->
  is_pow2 (filter_length geo) /\ 2 * n_v geo <= filter_length geo.
Proof.
  intros Hn. unfold filter_length, n_v in *. split.
  - destruct (pow2_ceil_log2_pow2 _ Hn) as (k & Hk & ->).
    exists (k + 1). split; [lia|]. rewrite Z.pow_add_r by lia. lia.
  - pose proof (pow2_ceil_log2_ge (det_pixels_column geo)). lia.
Qed.

End FilterLengthFacts.

(** ** Launches of threads that update one cell each *)

Section BufferInstances.
Import Cuda.

#[export] Instance buffer_1D_laws {A : Type} : BufferLaws (list A) nat A.
Proof.
  split.
  - intros b i v Hs. apply list_lookup_insert_eq.
    by apply lookup_lt_is_Some.
  - intros b i j v Hne. by apply list_lookup_insert_ne.
Qed.

#[export] Instance buffer_2D_laws {A : Type} :
  BufferLaws (list (list A)) (nat * nat) A.
Proof.
  split.
  - intros b [x y] v Hs; simpl in *.
    rewrite list_lookup_alter_eq.
    destruct (b !! y) as [row|]; simpl; [|by destruct Hs].
    apply list_lookup_insert_eq. by apply lookup_lt_is_Some.
  - intros b [x y] [x' y'] v Hne; simpl in *.
    destruct (decide (y = y')) as [->|Hy].
    + rewrite list_lookup_alter_eq.
      destruct (b !! y') as [row|]; simpl; [|done].
      apply list_lookup_insert_ne. congruence.
    + by rewrite list_lookup_alter_ne.
Qed.

End BufferInstances.

Section CellUpdates.
Import Cuda.
Context {B I A : Type} `{BufferLaws B I A}.
Implicit Types (b : B) (i : I) (ts : list I).

Lemma for_each_ext {T S : Type} (ts : list T) (f g : T -> S -> option S) (s : S) :
  (forall t s', f t s' = g t s') -> for_each ts f s = for_each ts g s.
Proof.
  intros Hfg. revert s. induction ts as [|t ts IH]; intros s; simpl; [done|].
  rewrite Hfg. destruct (g t s); auto.
Qed.

(** A launch whose threads find their cell and compute a value leaves
    [g i old] in every guarded cell [i] and nothing else changed. *)
Lemma for_each_cells (guard : I -> bool) (g : I -> A -> option A) ts b :
  NoDup ts ->
  (forall i, i ∈ ts -> guard i = true ->
     exists old v, get b i = Some old /\ g i old = Some v) ->
  exists b',
    for_each ts (cell_update guard g) b = Some b' /\
    (forall i, i ∈ ts -> guard i = true -> get b' i = get b i ≫= g i) /\
    (forall i, ~ (i ∈ ts /\ guard i = true) -> get b' i = get b i).
Proof.
  intros Hnd. revert b.
  induction Hnd as [|t ts Hnotin Hnd IH]; intros b Hok; simpl.
  - exists b. split; [done|]. split; [|done].
    intros i Hi. by apply elem_of_nil in Hi.
  - unfold cell_update at 1. destruct (guard t) eqn:Hg.
    + destruct (Hok t) as (old & v & Hold & Hv); [left | done |].
      rewrite Hold, Hv.
      destruct (IH (put b t v)) as (b' & Hrun & Hin & Hout).
      { intros i Hi Hgi.
        assert (t <> i) by (intros ->; done).
        rewrite get_put_ne by done. apply Hok; [by right | done]. }
      exists b'. split; [done|]. split.
      * intros i Hi Hgi. apply elem_of_cons in Hi as [->|Hi].
        -- rewrite Hout by (intros [? _]; done).
           rewrite get_put_eq by (rewrite Hold; eauto).
           by rewrite Hold.
        -- assert (t <> i) by (intros ->; done).
           rewrite Hin by done. by rewrite get_put_ne.
      * intros i Hni.
        assert (t <> i).
        { intros ->. apply Hni. split; [left | done]. }
        rewrite Hout, get_put_ne; [done | done |].
        intros [Hi Hgi]. apply Hni. split; [by right | done].
    + destruct (IH b) as (b' & Hrun & Hin & Hout).
      { intros i Hi Hgi. apply Hok; [by right | done]. }
      exists b'. split; [done|]. split.
      * intros i Hi Hgi. apply elem_of_cons in Hi as [->|Hi]; [congruence|].
        by apply Hin.
      * intros i Hni. apply Hout. intros [Hi Hgi].
        apply Hni. split; [by right | done].
Qed.

(** Whatever every store preserves holds after the launch. *)
Lemma for_each_cells_invariant (P : B -> Prop)
    (guard : I -> bool) (g : I -> A -> option A) ts b b' :
  (forall b0 i v, P b0 -> P (put b0 i v)) ->
  P b -> for_each ts (cell_update guard g) b = Some b' -> P b'.
Proof.
  intros Hput. revert b. induction ts as [|t ts IH]; intros b HP; simpl.
  - by intros [= <-].
  - unfold cell_update at 1. destruct (guard t); [|by apply IH].
    destruct (get b t) as [old|]; [|done].
    destruct (g t old) as [v|]; [|done].
    apply IH. by apply Hput.
Qed.

End CellUpdates.

Section GridFacts.
Import Cuda.

Lemma elem_of_grid (tx ty x y : nat) :
  (x, y) ∈ grid tx ty <-> (x < tx /\ y < ty)%nat.
Proof.
  unfold grid. rewrite list_elem_of_bind. split.
  - intros (y' & Hx & Hy). apply list_elem_of_fmap in Hx as (x' & [= -> ->] & Hx).
    apply elem_of_seq in Hx, Hy. lia.
  - intros [Hx Hy]. exists y. split.
    + apply list_elem_of_fmap. exists x. split; [done|]. apply elem_of_seq. lia.
    + apply elem_of_seq. lia.
Qed.

Lemma NoDup_grid (tx ty : nat) : NoDup (grid tx ty).
Proof.
  unfold grid. apply NoDup_bind.
  - intros y1 y2 [x y] _ _ H1 H2.
    apply list_elem_of_fmap in H1 as (? & [= _ ->] & _).
    apply list_elem_of_fmap in H2 as (? & [= _ ->] & _). done.
  - intros y _. apply NoDup_fmap_2; [|apply NoDup_seq].
    intros x1 x2 [= ->]. done.
  - apply NoDup_seq.
Qed.

Lemma same_lookups_length {A C : Type} (l : list A) (k : list C) :
  (forall i, is_Some (l !! i) <-> is_Some (k !! i)) -> length l = length k.
Proof.
  intros Hlk.
  destruct (Nat.lt_trichotomy (length l) (length k)) as [Hlt|[Heq|Hgt]]; [|done|].
  - apply lookup_lt_is_Some, Hlk, lookup_lt_is_Some in Hlt. lia.
  - apply lookup_lt_is_Some, Hlk, lookup_lt_is_Some in Hgt. lia.
Qed.

(** A store into a pitched buffer moves no row and resizes none. *)
Lemma put_2D_shape {A : Type} (b : list (list A)) (i : nat * nat) (v : A) :
  length <$> put b i v = length <$> b.
Proof.
  destruct i as [x y]. simpl. apply list_eq. intros k.
  rewrite !list_lookup_fmap.
  destruct (decide (y = k)) as [->|Hne].
  - rewrite list_lookup_alter_eq. destruct (b !! k); simpl; [|done].
    by rewrite length_insert.
  - by rewrite list_lookup_alter_ne.
Qed.

Lemma rem2_even (j : Z) : (Z.rem j 2 =? 0) = Z.even j.
Proof.
  destruct (Z.le_gt_cases 0 j) as [Hj|Hj].
  - rewrite Z.rem_mod_nonneg by lia. rewrite Zmod_even.
    by destruct (Z.even j).
  - replace j with (- - j) at 1 by lia.
    rewrite Z.rem_opp_l by lia. rewrite Z.rem_mod_nonneg by lia.
    rewrite Zmod_even, Z.even_opp. by destruct (Z.even j).
Qed.

End GridFacts.

Section LaunchFacts.
Import Cuda.

Lemma launch1D_cells {A : Type} (guard : nat -> bool)
    (g : nat -> A -> option A) (threads : nat) (b : list A) :
  (forall x, guard x = true ->
     (x < threads)%nat /\ exists old v, b !! x = Some old /\ g x old = Some v) ->
  exists b',
    launch1D threads (cell_update guard g) b = Some b' /\
    length b' = length b /\
    forall x, b' !! x = if guard x then b !! x ≫= g x else b !! x.
Proof.
  intros Hok. unfold launch1D.
  destruct (for_each_cells guard g (seq 0 threads) b) as (b' & Hrun & Hin & Hout).
  { apply NoDup_seq. }
  { intros x _ Hg. by apply Hok. }
  exists b'. split; [done|]. split.
  - apply (for_each_cells_invariant (fun b0 : list A => length b0 = length b)
             guard g (seq 0 threads) b b'); [|done|done].
    intros b0 i v Hb0. simpl. by rewrite length_insert.
  - intros x. destruct (guard x) eqn:Hg.
    + apply Hin; [|done]. apply elem_of_seq. destruct (Hok x Hg). lia.
    + apply Hout. intros [_ ?]. congruence.
Qed.

Lemma launch2D_cells {A : Type} (guard : nat * nat -> bool)
    (g : nat * nat -> A -> option A) (tx ty : nat) (b : list (list A)) :
  (forall x y, guard (x, y) = true ->
     (x < tx /\ y < ty)%nat /\
     exists old v, get b (x, y) = Some old /\ g (x, y) old = Some v) ->
  exists b',
    launch2D tx ty (cell_update guard g) b = Some b' /\
    length <$> b' = length <$> b /\
    forall i, get b' i = if guard i then get b i ≫= g i else get b i.
Proof.
  intros Hok. unfold launch2D.
  destruct (for_each_cells guard g (grid tx ty) b) as (b' & Hrun & Hin & Hout).
  { apply NoDup_grid. }
  { intros [x y] _ Hg. by apply Hok. }
  exists b'. split; [done|]. split.
  - apply (for_each_cells_invariant
             (fun b0 : list (list A) => length <$> b0 = length <$> b)
             guard g (grid tx ty) b b'); [|done|done].
    intros b0 i v Hb0. by rewrite put_2D_shape.
  - intros [x y]. destruct (guard (x, y)) eqn:Hg.
    + apply Hin; [|done]. apply elem_of_grid. by destruct (Hok x y Hg).
    + apply Hout. intros [_ ?]. congruence.
Qed.

(** Two pitched buffers of one shape with the same cells are equal. *)
Lemma buffer_2D_eq {A : Type} (b c : list (list A)) :
  length <$> b = length <$> c ->
  (forall x y, get b (x, y) = get c (x, y)) -> b = c.
Proof.
  intros Hshape Hcells. apply list_eq. intros y.
  assert (length <$> b !! y = length <$> c !! y) as Hy
    by (by rewrite <- !list_lookup_fmap, Hshape).
  specialize (fun x => Hcells x y). simpl in Hcells.
  destruct (b !! y) as [rb|], (c !! y) as [rc|]; simpl in *; try done.
  f_equal. by apply list_eq.
Qed.

Lemma shape_lookup {A : Type} (b : list (list A)) (h w y : nat) :
  length b = h -> Forall (fun row => length row = w) b -> (y < h)%nat ->
  exists row, b !! y = Some row /\ length row = w.
Proof.
  intros Hh Hw Hy. destruct (lookup_lt_is_Some_2 b y) as [row Hrow]; [lia|].
  exists row. split; [done|]. by eapply (Forall_lookup_1 _ _ _ _ Hw).
Qed.

Lemma shape_eq {A C : Type} (b : list (list A)) (c : list (list C)) (w : nat) :
  length b = length c ->
  Forall (fun row => length row = w) b ->
  Forall (fun row => length row = w) c ->
  length <$> b = length <$> c.
Proof.
  intros Hlen Hb Hc. apply list_eq. intros y. rewrite !list_lookup_fmap.
  destruct (b !! y) as [rb|] eqn:Erb, (c !! y) as [rc|] eqn:Erc; simpl.
  - f_equal. rewrite (Forall_lookup_1 _ _ _ _ Hb Erb).
    by rewrite (Forall_lookup_1 _ _ _ _ Hc Erc).
  - apply lookup_lt_Some in Erb. apply lookup_ge_None in Erc. lia.
  - apply lookup_lt_Some in Erc. apply lookup_ge_None in Erb. lia.
  - done.
Qed.

End LaunchFacts.

(** ** The filter kernels *)

Section KernelFacts.
Import Cuda FilterKernels.
Context {F : Type} `{FloatOps F}.
Local Open Scope float_scope.

Lemma createFilter_cell (j : list Z) (size : nat) (tau : F) (x : nat) (r : list F) :
  createFilter j size tau x r =
  cell_update (fun x => bool_decide (x < size)%nat)
              (fun x _ => ramp tau <$> j !! x) x r.
Proof.
  unfold createFilter, cell_update, read, write, ramp. simpl.
  case_bool_decide; [|by rewrite decide_False].
  rewrite decide_True by done.
  destruct (j !! x) as [jx|]; simpl; [|by destruct (r !! x)].
  rewrite rem2_even.
  destruct (Z.eqb_spec jx 0) as [->|Hne]; [done|].
  rewrite decide_False by done.
  by destruct (Z.even jx), (r !! x).
Qed.

Lemma make_ramp_eq (j : list Z) (tau : F) (size threads : nat) (r : list F) :
  length r = size -> length j = size -> (size <= threads)%nat ->
  make_ramp threads j size tau r = Some (ramp tau <$> j).
Proof.
  intros Hr Hj Hthreads. unfold make_ramp.
  rewrite (for_each_ext _ _ _ _ (createFilter_cell j size tau)
            : launch1D threads (createFilter j size tau) r = launch1D threads _ r).
  destruct (launch1D_cells (fun x => bool_decide (x < size)%nat)
              (fun x (_ : F) => ramp tau <$> j !! x) threads r)
    as (r' & -> & Hlen & Hcells).
  { intros x Hx. apply bool_decide_eq_true in Hx. split; [lia|].
    destruct (lookup_lt_is_Some_2 r x) as [old Hold]; [lia|].
    destruct (lookup_lt_is_Some_2 j x) as [jx Hjx]; [lia|].
    exists old, (ramp tau jx). by rewrite Hjx. }
  f_equal. apply list_eq. intros x. rewrite Hcells, list_lookup_fmap.
  case_bool_decide as Hx.
  - destruct (lookup_lt_is_Some_2 r x) as [old ->]; [lia|]. done.
  - rewrite !lookup_ge_None_2 by lia. done.
Qed.

Lemma ramp_zero (tau : F) :
  ramp tau 0 = (of_Z 1 / of_Z 8) * (of_Z 1 / powf tau (of_Z 2)).
Proof. done. Qed.

Lemma ramp_even (tau : F) (j : Z) :
  j <> 0 -> Z.Even j -> ramp tau j = of_Z 0.
Proof.
  intros Hj He. unfold ramp. rewrite decide_False by done.
  apply Z.even_spec in He. by rewrite He.
Qed.

Lemma ramp_odd (tau : F) (j : Z) :
  Z.Odd j ->
  ramp tau j = of_Z (-1) / (of_Z 2 * powf (of_Z j) (of_Z 2)
                            * powf M_PI (of_Z 2) * powf tau (of_Z 2)).
Proof.
  intros Ho. unfold ramp. apply Z.odd_spec in Ho.
  rewrite decide_False by (intros ->; done).
  rewrite <- Z.negb_odd, Ho. done.
Qed.

Lemma createK_cell (filter_length : nat) (tau : F) (x : nat)
    (data : list cufftComplex) :
  createK filter_length tau x data =
  cell_update (fun x => bool_decide (x < filter_length)%nat)
              (fun _ X => Some (magnitude tau X, magnitude tau X)) x data.
Proof.
  unfold createK, cell_update, read, write, cufftComplex in *. simpl.
  case_bool_decide; [|by rewrite decide_False].
  rewrite decide_True by done. destruct (data !! x); reflexivity.
Qed.

Lemma make_K_eq (tau : F) (n threads : nat) (filter : list cufftComplex) :
  length filter = n -> (n <= threads)%nat ->
  make_K threads n tau filter =
  Some ((fun X => (magnitude tau X, magnitude tau X)) <$> filter).
Proof.
  intros Hn Hthreads. unfold make_K.
  rewrite (for_each_ext _ _ _ _ (createK_cell n tau)
            : launch1D threads (createK n tau) filter = launch1D threads _ filter).
  destruct (launch1D_cells (fun x => bool_decide (x < n)%nat)
              (fun _ X => Some (magnitude tau X, magnitude tau X)) threads filter)
    as (K & -> & Hlen & Hcells).
  { intros x Hx. apply bool_decide_eq_true in Hx. split; [lia|].
    destruct (lookup_lt_is_Some_2 filter x) as [old Hold]; [lia|]. eauto. }
  f_equal. apply list_eq. intros x. rewrite Hcells, list_lookup_fmap.
  case_bool_decide as Hx.
  - by destruct (filter !! x).
  - rewrite !lookup_ge_None_2 by lia. done.
Qed.

End KernelFacts.

Section KernelFacts2D.
Import Cuda FilterKernels.
Context {F : Type} `{FloatOps F}.
Local Open Scope float_scope.

Lemma get_2D_fmap {A C : Type} (f : list A -> list C) (b : list (list A)) (x y : nat) :
  get (f <$> b) (x, y) = b !! y ≫= fun row => f row !! x.
Proof. simpl. rewrite list_lookup_fmap. by destruct (b !! y). Qed.

Lemma applyFilter_cell (filter : list cufftComplex) (n h : nat)
    (xy : nat * nat) (data : list (list cufftComplex)) :
  applyFilter filter n h xy data =
  cell_update (fun xy => bool_decide (xy.1 < n /\ xy.2 < h)%nat)
              (fun xy a => k ← filter !! xy.1; Some (a.1 * k.1, a.2 * k.2))
              xy data.
Proof.
  destruct xy as [x y].
  unfold applyFilter, cell_update, read, write, cufftComplex in *. simpl.
  case_bool_decide; [|by rewrite decide_False].
  rewrite decide_True by done.
  destruct (data !! y) as [row|]; [|done].
  destruct (row !! x) as [a|]; [|done].
  by destruct (filter !! x).
Qed.

Lemma multiply_eq (filter : list cufftComplex) (n h tx ty : nat)
    (transformed : list (list cufftComplex)) :
  length filter = n -> length transformed = h ->
  Forall (fun row => length row = n) transformed ->
  (n <= tx)%nat -> (h <= ty)%nat ->
  multiply tx ty filter n h transformed =
  Some ((fun row => zip_with (fun a k => (a.1 * k.1, a.2 * k.2)) row filter)
          <$> transformed).
Proof.
  intros Hn Hh Hrows Htx Hty. unfold multiply, cufftComplex in *.
  unfold launch2D.
  etrans; [apply for_each_ext; intros; apply applyFilter_cell|].
  destruct (launch2D_cells
              (fun xy => bool_decide (xy.1 < n /\ xy.2 < h)%nat)
              (fun xy (a : F * F) =>
                 k ← filter !! xy.1; Some (a.1 * k.1, a.2 * k.2))
              tx ty transformed) as (data' & Hrun & Hshape & Hcells).
  { intros x y [Hx Hy]%bool_decide_eq_true. simpl in *. split; [lia|].
    destruct (shape_lookup transformed h n y) as (row & Hrow & Hlen); [done..|].
    destruct (lookup_lt_is_Some_2 row x) as [a Ha]; [lia|].
    destruct (lookup_lt_is_Some_2 filter x) as [k Hk]; [lia|].
    exists a. unfold cufftComplex in *. rewrite Hrow, Hk. simpl. eauto. }
  etrans; [exact Hrun|]. f_equal. apply buffer_2D_eq.
  - rewrite Hshape. apply (shape_eq _ _ n); [by rewrite length_fmap|done|].
    apply Forall_fmap. eapply Forall_impl; [exact Hrows|].
    intros row Hrow. unfold cufftComplex in *. simpl in *.
    rewrite length_zip_with. lia.
  - intros x y. rewrite Hcells, get_2D_fmap. simpl.
    destruct (transformed !! y) as [row|] eqn:Erow; simpl.
    + rewrite lookup_zip_with.
      assert (length row = n) by (by eapply (Forall_lookup_1 _ _ _ _ Hrows)).
      apply lookup_lt_Some in Erow.
      case_bool_decide as Hxy.
      * done.
      * rewrite (lookup_ge_None_2 row) by lia. done.
    + by case_bool_decide.
Qed.

Lemma convertProjection_cell (input : list (list F)) (width height n : nat)
    (xy : nat * nat) (output : list (list F)) :
  convertProjection input width height n xy output =
  cell_update (fun xy => bool_decide (xy.1 < n /\ xy.2 < height)%nat)
              (fun xy _ => if decide (xy.1 < width)%nat then get input xy
                           else Some (of_Z 0))
              xy output.
Proof.
  destruct xy as [x y].
  unfold convertProjection, cell_update, read, write. simpl.
  case_bool_decide; [|by rewrite decide_False].
  rewrite decide_True by done.
  destruct (decide (x < width)%nat).
  - destruct (input !! y) as [irow|]; simpl.
    + destruct (irow !! x); simpl; [done|].
      destruct (output !! y) as [orow|]; [|done]. by destruct (orow !! x).
    + destruct (output !! y) as [orow|]; [|done]. by destruct (orow !! x).
  - done.
Qed.

Lemma pad_eq (img converted : list (list F)) (width height n tx ty : nat) :
  length img = height -> Forall (fun row => length row = width) img ->
  length converted = height -> Forall (fun row => length row = n) converted ->
  (width <= n)%nat -> (n <= tx)%nat -> (height <= ty)%nat ->
  pad tx ty img width height n converted =
  Some ((fun row => row ++ replicate (n - width) (of_Z 0)) <$> img).
Proof.
  intros Hih Hiw Hch Hcw Hwn Htx Hty. unfold pad.
  unfold launch2D.
  etrans; [apply for_each_ext; intros; apply convertProjection_cell|].
  destruct (launch2D_cells
              (fun xy => bool_decide (xy.1 < n /\ xy.2 < height)%nat)
              (fun xy (_ : F) => if decide (xy.1 < width)%nat then get img xy
                                 else Some (of_Z 0))
              tx ty converted) as (out & Hrun & Hshape & Hcells).
  { intros x y [Hx Hy]%bool_decide_eq_true. simpl in Hx, Hy. split; [lia|].
    destruct (shape_lookup converted height n y) as (orow & Horow & Holen); [done..|].
    destruct (lookup_lt_is_Some_2 orow x) as [old Hold]; [lia|].
    exists old. simpl. rewrite Horow.
    destruct (decide (x < width)%nat); [|eauto].
    destruct (shape_lookup img height width y) as (irow & Hirow & Hilen); [done..|].
    destruct (lookup_lt_is_Some_2 irow x) as [v Hv]; [lia|].
    rewrite Hirow. eauto. }
  etrans; [exact Hrun|]. f_equal. apply buffer_2D_eq.
  - rewrite Hshape. apply (shape_eq _ _ n); [by rewrite length_fmap, Hih|done|].
    apply Forall_fmap. eapply Forall_impl; [exact Hiw|].
    intros row Hrow. simpl in *. rewrite length_app, length_replicate. lia.
  - intros x y. rewrite Hcells, get_2D_fmap. simpl.
    destruct (img !! y) as [irow|] eqn:Eirow; simpl.
    + assert (length irow = width) by (by eapply (Forall_lookup_1 _ _ _ _ Hiw)).
      apply lookup_lt_Some in Eirow.
      destruct (shape_lookup converted height n y) as (orow & -> & Holen); [done|done|lia|].
      case_bool_decide as Hxy; simpl in Hxy.
      * destruct (lookup_lt_is_Some_2 orow x) as [old ->]; [lia|]. simpl.
        destruct (decide (x < width)%nat).
        -- by rewrite lookup_app_l by lia.
        -- rewrite lookup_app_r by lia. symmetry.
           apply lookup_replicate_2. lia.
      * rewrite !lookup_ge_None_2; [done| |lia].
        rewrite length_app, length_replicate. lia.
    + apply lookup_ge_None in Eirow.
      rewrite (lookup_ge_None_2 converted y) by lia.
      by case_bool_decide.
Qed.

Lemma convertFiltered_cell (input : list (list F)) (width height n : nat)
    (xy : nat * nat) (output : list (list F)) :
  convertFiltered input width height n xy output =
  cell_update (fun xy => bool_decide (xy.1 < width /\ xy.2 < height)%nat)
              (fun xy _ => (fun v => v / of_Z (Z.of_nat n)) <$> get input xy)
              xy output.
Proof.
  destruct xy as [x y].
  unfold convertFiltered, cell_update, read, write. simpl.
  case_bool_decide; [|by rewrite decide_False].
  rewrite decide_True by done.
  destruct (input !! y) as [irow|]; simpl.
  - destruct (irow !! x); simpl; [done|].
    destruct (output !! y) as [orow|]; [|done]. by destruct (orow !! x).
  - destruct (output !! y) as [orow|]; [|done]. by destruct (orow !! x).
Qed.

Lemma unpad_eq (img converted : list (list F)) (width height n tx ty : nat) :
  length img = height -> Forall (fun row => length row = width) img ->
  length converted = height -> Forall (fun row => length row = n) converted ->
  (width <= n)%nat -> (width <= tx)%nat -> (height <= ty)%nat ->
  unpad tx ty converted width height n img =
  Some ((fun row => (fun v => v / of_Z (Z.of_nat n)) <$> take width row)
          <$> converted).
Proof.
  intros Hih Hiw Hch Hcw Hwn Htx Hty. unfold unpad.
  unfold launch2D.
  etrans; [apply for_each_ext; intros; apply convertFiltered_cell|].
  destruct (launch2D_cells
              (fun xy => bool_decide (xy.1 < width /\ xy.2 < height)%nat)
              (fun xy (_ : F) =>
                 (fun v => v / of_Z (Z.of_nat n)) <$> get converted xy)
              tx ty img) as (out & Hrun & Hshape & Hcells).
  { intros x y [Hx Hy]%bool_decide_eq_true. simpl in Hx, Hy. split; [lia|].
    destruct (shape_lookup img height width y) as (irow & Hirow & Hilen); [done..|].
    destruct (lookup_lt_is_Some_2 irow x) as [old Hold]; [lia|].
    destruct (shape_lookup converted height n y) as (crow & Hcrow & Hclen); [done..|].
    destruct (lookup_lt_is_Some_2 crow x) as [v Hv]; [lia|].
    exists old. simpl. rewrite Hirow, Hcrow, Hv. simpl. eauto. }
  etrans; [exact Hrun|]. f_equal. apply buffer_2D_eq.
  - rewrite Hshape. apply (shape_eq _ _ width); [by rewrite length_fmap, Hih|done|].
    apply Forall_fmap. eapply Forall_impl; [exact Hcw|].
    intros row Hrow. simpl in *. rewrite length_fmap, length_take. lia.
  - intros x y. rewrite Hcells, get_2D_fmap. simpl.
    destruct (converted !! y) as [crow|] eqn:Ecrow; simpl.
    + assert (length crow = n) by (by eapply (Forall_lookup_1 _ _ _ _ Hcw)).
      apply lookup_lt_Some in Ecrow.
      destruct (shape_lookup img height width y) as (irow & -> & Hilen); [done|done|lia|].
      rewrite list_lookup_fmap.
      case_bool_decide as Hxy; simpl in Hxy.
      * destruct (lookup_lt_is_Some_2 irow x) as [old ->]; [lia|]. simpl.
        by rewrite lookup_take_lt by lia.
      * rewrite lookup_take_ge by lia.
        by rewrite lookup_ge_None_2 by lia.
    + apply lookup_ge_None in Ecrow.
      rewrite (lookup_ge_None_2 img y) by lia.
      by case_bool_decide.
Qed.

End KernelFacts2D.

(** ** The filter stage: length, index buffer and kernels *)

Section FilterStage.
Import Geometry FilterLength FilterIndex Cuda FilterKernels.

(** C1.  [Filter::Filter] derives [filter_length_] from
    [det_pixels_column], the number of detector rows, and from nothing
    else: a detector of 8 columns and 2 rows gets the length 4, which is
    a power of two but less than twice the number of columns. *)
Theorem filter_length_from_rows_only :
  (forall columns columns' rows,
      filter_length (mkGeometry columns rows) =
      filter_length (mkGeometry columns' rows)) /\
  well_formed (mkGeometry 8 2) /\
  filter_length (mkGeometry 8 2) = 4 /\
  is_pow2 (filter_length (mkGeometry 8 2)) /\
  filter_length (mkGeometry 8 2) < 2 * n_h (mkGeometry 8 2).
Proof.
  split; [done|]. split; [unfold well_formed, uint32_max; simpl; lia|].
  split; [reflexivity|]. split; [|reflexivity].
  exists 2. split; [lia | reflexivity].
Qed.

Lemma j_loop_stores_lookup (n k : nat) (j : Z) (i : nat) :
  (i < n)%nat ->
  j_loop_stores n k j !! i = Some ((k + i)%nat, j + Z.of_nat i).
Proof.
  revert k j i. induction n as [|n IH]; intros k j i Hi; [lia|].
  destruct i as [|i]; simpl.
  - do 2 f_equal; lia.
  - rewrite IH by lia. do 2 f_equal; lia.
Qed.

Lemma j_loop_fault (n k : nat) (j : Z) (buf : list Z) :
  (k <= length buf)%nat -> (length buf < k + n)%nat ->
  j_loop n k j buf = None.
Proof.
  revert k j buf. induction n as [|n IH]; intros k j buf Hk Hn; [lia|].
  simpl. unfold store. case_decide as Hlt; [|done].
  apply IH; rewrite length_insert; lia.
Qed.

Lemma j_loop_in_range (n k : nat) (j : Z) (buf : list Z) :
  (k + n <= length buf)%nat ->
  exists buf',
    j_loop n k j buf = Some buf' /\ length buf' = length buf /\
    forall i, buf' !! i =
              if decide (k <= i < k + n)%nat
              then Some (j + Z.of_nat (i - k)) else buf !! i.
Proof.
  revert k j buf. induction n as [|n IH]; intros k j buf Hn; simpl.
  - exists buf. split; [done|]. split; [done|].
    intros i. by rewrite decide_False by lia.
  - unfold store. rewrite decide_True by lia.
    destruct (IH (S k) (j + 1) (<[k := j]> buf)) as (buf' & -> & Hlen & Hcells).
    { rewrite length_insert. lia. }
    exists buf'. split; [done|]. rewrite length_insert in Hlen.
    split; [done|]. intros i. rewrite Hcells.
    destruct (decide (i = k)) as [->|Hne].
    + rewrite decide_False, decide_True by lia.
      rewrite list_lookup_insert_eq by lia. f_equal. lia.
    + rewrite list_lookup_insert_ne by done.
      destruct (decide (S k <= i < S k + n)%nat).
      * rewrite decide_True by lia. f_equal. lia.
      * by rewrite decide_False by lia.
Qed.

(** With the bound [k < filter_length_] the buffer would hold the
    consecutive integers from [-(L-2)/2] to [L/2]. *)
Lemma fill_j_intended_eq (L : nat) :
  fill_j_intended L = Some ((fun k => j_start L + Z.of_nat k) <$> seq 0 L).
Proof.
  unfold fill_j_intended, make_host_ptr.
  destruct (j_loop_in_range L 0 (j_start L) (replicate L 0))
    as (buf & -> & Hlen & Hcells).
  { rewrite length_replicate. lia. }
  rewrite length_replicate in Hlen.
  f_equal. apply list_eq. intros i. rewrite Hcells, list_lookup_fmap.
  case_decide as Hi.
  - rewrite lookup_seq_lt by lia. simpl. do 2 f_equal. lia.
  - rewrite lookup_seq_ge by lia. apply lookup_replicate_None. lia.
Qed.

Lemma j_start_even (L : nat) :
  (2 <= L)%nat -> Z.of_nat L < 2 ^ 31 -> Z.Even (Z.of_nat L) ->
  j_start L = - ((Z.of_nat L - 2) / 2) /\
  j_start L + Z.of_nat (L - 1) = Z.of_nat L / 2.
Proof.
  intros HL Hmax [m Hm]. unfold j_start, to_int32.
  rewrite Z.mod_small by lia.
  destruct (Z.ltb_spec (Z.of_nat L) (2 ^ 31)); [|lia].
  rewrite Z.quot_div_nonneg by lia.
  replace (Z.of_nat (L - 1)) with (Z.of_nat L - 1) by lia. rewrite Hm.
  replace (2 * m - 2) with ((m - 1) * 2) by lia.
  replace (2 * m) with (m * 2) by lia.
  rewrite !Z.div_mul by lia. lia.
Qed.

(** C10.  The loop of [Filter::filterProcessor] runs for
    [k = 0, ..., filter_length_] inclusive: its last store goes to the
    index [filter_length_], one past the end of the buffer of
    [filter_length_] elements. *)
Theorem j_loop_stores_past_end (L : nat) :
  j_stores L !! L = Some (L, j_start L + Z.of_nat L) /\
  length (make_host_ptr L) = L /\
  fill_j_host_buffer L = None.
Proof.
  split; [|split].
  - unfold j_stores. rewrite j_loop_stores_lookup by lia. done.
  - apply length_replicate.
  - unfold fill_j_host_buffer. apply j_loop_fault;
      unfold make_host_ptr; rewrite length_replicate; lia.
Qed.

Section Arithmetic.
Context {F : Type} `{FloatOps F}.
Local Open Scope float_scope.

(** C4.  [createFilter] stores, for every index [x] of the buffer
    with [j[x] = jx]: [1/8 * 1/tau^2] when [jx = 0], [0] when [jx] is
    even and not zero, and [-1 / (2 * jx^2 * pi^2 * tau^2)] when [jx]
    is odd. *)
Theorem createFilter_builds_ramp (j : list Z) (tau : F)
    (size threads : nat) (r : list F) :
  length r = size -> length j = size -> (size <= threads)%nat ->
  exists r',
    make_ramp threads j size tau r = Some r' /\
    length r' = size /\
    forall x jx, j !! x = Some jx ->
      (jx = 0%Z ->
       r' !! x = Some ((of_Z 1 / of_Z 8) * (of_Z 1 / powf tau (of_Z 2)))) /\
      (jx <> 0%Z -> Z.Even jx -> r' !! x = Some (of_Z 0)) /\
      (Z.Odd jx ->
       r' !! x = Some (of_Z (-1) / (of_Z 2 * powf (of_Z jx) (of_Z 2)
                                    * powf M_PI (of_Z 2)
                                    * powf tau (of_Z 2)))).
Proof.
  intros Hr Hj Hthreads. exists (ramp tau <$> j).
  split; [by apply make_ramp_eq|]. split; [by rewrite length_fmap|].
  intros x jx Hjx. rewrite list_lookup_fmap, Hjx. simpl.
  split; [|split].
  - intros ->. by rewrite ramp_zero.
  - intros Hne He. by rewrite ramp_even.
  - intros Ho. by rewrite ramp_odd.
Qed.

(** C5.  [createK] overwrites every element [X] of the transformed
    kernel with [tau * |X|] in both components, and [applyFilter]
    multiplies, in every row, the real part of the projection by the
    real part of the filter and the imaginary part by the imaginary
    part. *)
Theorem createK_applyFilter_componentwise (tau : F)
    (filter K : list cufftComplex)
    (transformed : list (list cufftComplex)) (n h threads tx ty : nat) :
  length filter = n -> length K = n -> length transformed = h ->
  Forall (fun row => length row = n) transformed ->
  (n <= threads)%nat -> (n <= tx)%nat -> (h <= ty)%nat ->
  make_K threads n tau filter =
    Some ((fun X => (tau * fabsf (sqrtf (powf X.1 (of_Z 2) + powf X.2 (of_Z 2))),
                     tau * fabsf (sqrtf (powf X.1 (of_Z 2) + powf X.2 (of_Z 2)))))
            <$> filter) /\
  multiply tx ty K n h transformed =
    Some ((fun row => zip_with (fun a k => (a.1 * k.1, a.2 * k.2)) row K)
            <$> transformed).
Proof.
  intros Hf HK Hh Hrows Hthreads Htx Hty. split.
  - by apply make_K_eq.
  - by apply multiply_eq.
Qed.

(** C6, for a filter length that is at least the width.  Padding
    copies every row and appends zeros up to the filter length;
    unpadding writes the first [width] samples of every row, divided
    by the filter length, into the projection. *)
Theorem pad_then_unpad (img converted filtered : list (list F))
    (width height n tx ty : nat) :
  length img = height -> Forall (fun row => length row = width) img ->
  length converted = height -> Forall (fun row => length row = n) converted ->
  length filtered = height -> Forall (fun row => length row = n) filtered ->
  (width <= n)%nat -> (n <= tx)%nat -> (height <= ty)%nat ->
  pad tx ty img width height n converted =
    Some ((fun row => row ++ replicate (n - width) (of_Z 0)) <$> img) /\
  unpad tx ty filtered width height n img =
    Some ((fun row => (fun v => v / of_Z (Z.of_nat n)) <$> take width row)
            <$> filtered).
Proof.
  intros Hih Hiw Hch Hcw Hfh Hfw Hwn Htx Hty. split.
  - by apply pad_eq.
  - apply unpad_eq; [done..|lia|done].
Qed.
End Arithmetic.

End FilterStage.

(** ** The preloader *)

Section PreloaderFacts.
Import Preloader.
Variable cuda : nat -> option cuda_exception.

Ltac run_call :=
  unfold do_allocate_smart, do_create_concurrent_stream, do_fill, do_copy,
    do_synchronize_stream, do_set_device, output_, cuda_call, emit; simpl.

Lemma upload_ok (p : input_type) (st : state) :
  (forall i, (i < 5)%nat -> cuda (calls st + i) = None) ->
  upload cuda p st =
  (inl tt, mkState (calls st + 5) (S (next_ptr st)) (S (next_stream st))
                   (trace st ++ upload_events p (next_ptr st) (next_stream st))).
Proof.
  intros Hc.
  pose proof (Hc 0%nat ltac:(lia)) as H0. rewrite Nat.add_0_r in H0.
  pose proof (Hc 1%nat ltac:(lia)) as H1. rewrite Nat.add_1_r in H1.
  pose proof (Hc 2%nat ltac:(lia)) as H2.
  replace (calls st + 2)%nat with (S (S (calls st))) in H2 by lia.
  pose proof (Hc 3%nat ltac:(lia)) as H3.
  replace (calls st + 3)%nat with (S (S (S (calls st)))) in H3 by lia.
  pose proof (Hc 4%nat ltac:(lia)) as H4.
  replace (calls st + 4)%nat with (S (S (S (S (calls st))))) in H4 by lia.
  unfold upload, mbind, M_bind. run_call.
  rewrite H0. simpl. rewrite H1. simpl. rewrite H2. simpl.
  rewrite H3. simpl. rewrite H4. simpl.
  f_equal. f_equal; [lia|]. unfold upload_events.
  by rewrite <- !app_assoc.
Qed.

(** Whatever the runtime does, an upload pushes no sentinel, and an
    exception it ends with is one the runtime raised. *)
Lemma upload_trace (p : input_type) (st st' : state) (r : unit + cuda_exception) :
  upload cuda p st = (r, st') ->
  (exists evs, trace st' = trace st ++ evs /\
               sentinel_outputs evs = []) /\
  (forall e, r = inr e -> exists n, cuda n = Some e).
Proof.
  unfold upload, mbind, M_bind. run_call.
  destruct (cuda (calls st)) as [e0|] eqn:E0; simpl.
  { intros [= <- <-]. simpl. split; [exists []; by rewrite app_nil_r|].
    intros e [= <-]. eauto. }
  destruct (cuda (S (calls st))) as [e1|] eqn:E1; simpl.
  { intros [= <- <-]. simpl. split; [eexists; split; [done|done]|].
    intros e [= <-]. eauto. }
  destruct (cuda (S (S (calls st)))) as [e2|] eqn:E2; simpl.
  { intros [= <- <-]. simpl. split.
    - eexists. split; [by rewrite <- !app_assoc|done].
    - intros e [= <-]. eauto. }
  destruct (cuda (S (S (S (calls st))))) as [e3|] eqn:E3; simpl.
  { intros [= <- <-]. simpl. split.
    - eexists. split; [by rewrite <- !app_assoc|done].
    - intros e [= <-]. eauto. }
  destruct (cuda (S (S (S (S (calls st)))))) as [e4|] eqn:E4; simpl.
  { intros [= <- <-]. simpl. split.
    - eexists. split; [by rewrite <- !app_assoc|done].
    - intros e [= <-]. eauto. }
  intros [= <- <-]. simpl. split.
  - eexists. split; [by rewrite <- !app_assoc|done].
  - intros e [=].
Qed.

Lemma loop_trace (input : list input_type) (st st' : state)
    (r : loop_end + cuda_exception) :
  loop cuda input st = (r, st') ->
  (exists evs, trace st' = trace st ++ evs /\
               sentinel_outputs evs = []) /\
  (forall e, r = inr e -> exists n, cuda n = Some e).
Proof.
  revert st. induction input as [|p rest IH]; intros st; simpl.
  - intros [= <- <-]. split; [exists []; by rewrite app_nil_r|]. by intros e [=].
  - destruct (valid p); simpl.
    + unfold mbind, M_bind.
      destruct (upload cuda p st) as [[[]|e] st1] eqn:Eup.
      * intros Hloop.
        destruct (upload_trace _ _ _ _ Eup) as [(evs1 & Htr1 & Hs1) _].
        destruct (IH _ Hloop) as [(evs2 & Htr2 & Hs2) He].
        split; [|done]. exists (evs1 ++ evs2). split.
        -- by rewrite Htr2, Htr1, app_assoc.
        -- unfold sentinel_outputs in *. by rewrite List.filter_app, Hs1, Hs2.
      * intros [= <- <-]. destruct (upload_trace _ _ _ _ Eup) as [Htr He].
        split; [done|]. intros e' [= <-]. by apply He.
    + intros [= <- <-]. split; [exists []; by rewrite app_nil_r|]. by intros e [=].
Qed.

Lemma loop_ok (pre tail : list input_type) (st : state) :
  Forall (fun p => valid p = true) pre ->
  (forall i, (i < 5 * length pre)%nat -> cuda (calls st + i) = None) ->
  loop cuda (pre ++ tail) st =
  loop cuda tail
    (mkState (calls st + 5 * length pre) (next_ptr st + length pre)
             (next_stream st + length pre)
             (trace st ++ uploads pre (next_ptr st) (next_stream st))).
Proof.
  intros Hvalid. revert st.
  induction Hvalid as [|p pre Hp Hpre IH]; intros st Hc; simpl.
  - rewrite !Nat.add_0_r, app_nil_r. by destruct st.
  - rewrite Hp. simpl. unfold mbind, M_bind at 1.
    rewrite upload_ok by (intros i Hi; apply Hc; simpl; lia).
    rewrite IH; simpl.
    + f_equal. f_equal; [lia..|]. by rewrite <- app_assoc.
    + intros i Hi. rewrite <- Nat.add_assoc. apply Hc. simpl. lia.
Qed.


Lemma sentinel_outputs_uploads (ps : list input_type) (d s : nat) :
  sentinel_outputs (uploads ps d s) = [].
Proof.
  revert d s. induction ps as [|p ps IH]; intros d s; [done|].
  unfold sentinel_outputs in *. simpl. apply IH.
Qed.

Lemma run_ok (device_ : Z) (pre : list input_type) (s : input_type)
    (rest : list input_type) :
  Forall (fun p => valid p = true) pre -> valid s = false ->
  (forall n, (n < 1 + 5 * length pre)%nat -> cuda n = None) ->
  run cuda device_ (pre ++ s :: rest) initial =
  (returns rest,
   mkState (1 + 5 * length pre) (length pre) (length pre)
     (set_device device_ :: uploads pre 0 0 ++
      [output output_type_default;
       log info "Uploaded all projections to the device(s)"])).
Proof.
  intros Hpre Hs Hc. unfold run, try_block, mbind, M_bind.
  unfold do_set_device, cuda_call. simpl. rewrite (Hc 0%nat) by lia. simpl.
  fold (@mbind M _). unfold worker, mbind, M_bind.
  rewrite loop_ok; [|done|intros i Hi; apply Hc; simpl; lia]. simpl.
  rewrite Hs. simpl.
  unfold mbind, M_bind, mret, M_ret, BOOST_LOG_TRIVIAL. run_call.
  do 2 f_equal. by rewrite <- !app_assoc.
Qed.

End PreloaderFacts.

(** ** The legacy filter's [process] *)

Section FilterProcessFacts.
Import FilterProcess.

Lemma spawn_running_valid (img : image) (f : Filter) :
  valid img = true -> running_valid f -> running_valid (spawn img f).
Proof.
  intros Himg. unfold spawn. generalize (seqZ 0 (devices_ f)). intros ds.
  revert f. induction ds as [|i ds IH]; intros f Hf; simpl; [done|].
  apply IH. case_decide; [|done].
  unfold running_valid. simpl. apply Forall_app. split; [done|].
  by constructor.
Qed.

(** Only threads working on valid images are ever running. *)
Lemma process_running_valid (order : list thread -> list thread)
    (img : image) (f : Filter) :
  running_valid f -> running_valid (process order img f).
Proof.
  intros Hf. unfold process. destruct (valid img) eqn:Himg; simpl.
  - by apply spawn_running_valid.
  - unfold running_valid. simpl. constructor.
Qed.

Lemma complete_running_valid (n : nat) (f : Filter) :
  running_valid f -> running_valid (complete n f).
Proof.
  intros Hf. unfold complete. destruct (running f !! n); [|done].
  unfold running_valid in *. simpl. by apply Forall_delete.
Qed.



End FilterProcessFacts.

(** ** The stages and the sentinel *)

Section Stages.
Import Preloader.

(** C3, as the handlers are written.  When a call into the CUDA runtime
    throws in the worker, [run] logs the cause at [fatal] and throws
    [stage_runtime_error]; the worker has pushed no sentinel. *)
Theorem preloader_failure cuda device_ input st e st1 :
  try_block cuda device_ input st = (inr e, st1) ->
  run cuda device_ input st =
    (throws (stage_runtime_error "preloader_stage::run() failed"),
     mkState (calls st1) (next_ptr st1) (next_stream st1)
             (trace st1 ++ [log fatal (handler_message e)])) /\
  (exists n, cuda n = Some e) /\
  exists evs, trace st1 = trace st ++ evs /\ sentinel_outputs evs = [].
Proof.
  intros Htry. split; [unfold run; by rewrite Htry|].
  revert Htry. unfold try_block, mbind, M_bind at 1.
  unfold do_set_device, cuda_call.
  destruct (cuda (calls st)) as [e0|] eqn:E0; simpl.
  { intros [= <- <-]. split; [eauto|]. exists []. by rewrite app_nil_r. }
  unfold worker, mbind, M_bind at 1.
  destruct (loop cuda input _) as [[le|e1] st2] eqn:Eloop.
  - destruct le; simpl; unfold mbind, M_bind; simpl; intros [=].
  - intros [= <- <-].
    destruct (loop_trace _ _ _ _ _ Eloop) as [(evs & Htr & Hs) He].
    split; [by apply He|]. simpl in Htr.
    exists (set_device device_ :: evs). split.
    + by rewrite Htr, <- app_assoc.
    + done.
Qed.

End Stages.

(** ** The sink and the driver *)

Section SinkAndMain.
Import SinkStage Main.

Lemma sink_paths (this : SinkStage) (input : list image) :
  Forall (fun ev => path_of ev = "/home/ufxray/Schreibtisch/Feldkamp/out.tif"%string)
         (run this input).2.
Proof.
  induction input as [|img rest IH]; simpl; [constructor|].
  destruct (valid img); [|constructor].
  destruct (run this rest) as [r evs]. simpl in *. by constructor.
Qed.

(** The sink, the end of the chain, saves the images that come before
    the sentinel, takes the sentinel and returns; it has no output. *)
Lemma sink_returns_on_sentinel (this : SinkStage) (pre : list image)
    (s : image) (rest : list image) :
  Forall (fun img => valid img = true) pre -> valid s = false ->
  run this (pre ++ s :: rest) =
  (returns rest,
   (fun img => saveImage img "/home/ufxray/Schreibtisch/Feldkamp/out.tif")
     <$> pre).
Proof.
  intros Hpre Hs. induction Hpre as [|img pre Himg Hpre IH]; simpl.
  - by rewrite Hs.
  - by rewrite Himg, IH.
Qed.

(** C7.  [SinkStage::run] saves every valid image to one fixed path,
    whatever directory the stage was constructed with: constructed with
    [/data/volume] and given slice 3, it writes to
    [/home/ufxray/Schreibtisch/Feldkamp/out.tif], which is not a file
    [{prefix}_000003.{ext}] under [/data/volume]. *)
Theorem sink_ignores_target_dir :
  (forall dir input,
      Forall (fun ev =>
                path_of ev = "/home/ufxray/Schreibtisch/Feldkamp/out.tif"%string)
             (run (construct dir) input).2) /\
  run (construct "/data/volume") [mkImage true 3; mkImage false 0] =
    (returns [],
     [saveImage (mkImage true 3)
                "/home/ufxray/Schreibtisch/Feldkamp/out.tif"]) /\
  forall prefix ext,
    slice_file "/data/volume" prefix 3 ext <>
    "/home/ufxray/Schreibtisch/Feldkamp/out.tif"%string.
Proof.
  split; [|split].
  - intros dir input. apply sink_paths.
  - reflexivity.
  - intros prefix ext. unfold slice_file. simpl. discriminate.
Qed.

Lemma slice_file_example :
  slice_file "/data/volume" "vol" 3 "tif" =
  "/data/volume/vol_000003.tif"%string.
Proof. reflexivity. Qed.

End SinkAndMain.

(** ** Instances *)

Section Instances.
Import Samples Cuda FilterKernels.

Lemma preloader_failure_witness :
  Preloader.run failing_allocation 0 [projection_7; sentinel]
                Preloader.initial =
    (Preloader.throws
       (Preloader.stage_runtime_error "preloader_stage::run() failed"),
     Preloader.mkState 2 0 0
       [Preloader.set_device 0;
        Preloader.log Preloader.fatal
          "preloader_stage::run() encountered a bad_alloc: out of memory"]).
Proof.
  destruct (preloader_failure failing_allocation 0 [projection_7; sentinel]
              Preloader.initial (Preloader.bad_alloc "out of memory")
              (Preloader.mkState 2 0 0 [Preloader.set_device 0]))
    as (Hrun & _).
  - reflexivity.
  - exact Hrun.
Defined.

(** C3 as stated does not hold: the run above throws and its trace
    holds no sentinel. *)
Lemma preloader_failure_pushes_no_sentinel :
  ~ (exists st',
        Preloader.run failing_allocation 0 [projection_7; sentinel]
                      Preloader.initial =
          (Preloader.throws Preloader.sre, st') /\
        Preloader.output Preloader.output_type_default
          ∈ Preloader.trace st').
Proof.
  intros (st' & Hrun & Hin).
  vm_compute in Hrun. injection Hrun as <-. simpl in Hin.
  apply elem_of_cons in Hin as [Hin|Hin]; [discriminate|].
  apply elem_of_cons in Hin as [Hin|Hin]; [discriminate|].
  by apply elem_of_nil in Hin.
Qed.

Lemma createFilter_builds_ramp_witness :
  exists r',
    make_ramp 8 [-1; 0; 1; 2] 4 (Var 0)
      (replicate 4 (Lit 9)) = Some r' /\
    length r' = 4%nat /\
    r' !! 1%nat =
      Some (Mul
              (Div (Lit 1) (Lit 8))
              (Div (Lit 1)
                 (Pow (Var 0)
                    (Lit 2)))) /\
    r' !! 3%nat = Some (Lit 0).
Proof.
  destruct (createFilter_builds_ramp (F := fexpr)
              [-1; 0; 1; 2] (Var 0) 4 8
              (replicate 4 (Lit 9)))
    as (r' & Hrun & Hlen & Hcells); [reflexivity | reflexivity | lia |].
  exists r'. split; [exact Hrun|]. split; [exact Hlen|]. split.
  - apply (Hcells 1%nat 0); reflexivity.
  - apply (Hcells 3%nat 2); [reflexivity | lia | by exists 1].
Defined.

Lemma createK_applyFilter_componentwise_witness :
  make_K 1 1 (Var 9)
    [(Var 0, Var 1)] =
    Some [(Mul (Var 9)
             (Abs (Sqrt
                (Add
                   (Pow (Var 0) (Lit 2))
                   (Pow (Var 1) (Lit 2))))),
           Mul (Var 9)
             (Abs (Sqrt
                (Add
                   (Pow (Var 0) (Lit 2))
                   (Pow (Var 1) (Lit 2))))))] /\
  multiply 1 1 [(Var 2, Var 3)] 1 1
    [[(Var 4, Var 5)]] =
    Some [[(Mul (Var 4) (Var 2),
            Mul (Var 5) (Var 3))]].
Proof.
  assert (Forall (fun row : list (fexpr * fexpr) => length row = 1%nat)
                 [[(Var 4, Var 5)]]) as Hrows by (repeat constructor).
  exact (createK_applyFilter_componentwise (F := fexpr)
           (Var 9) [(Var 0, Var 1)] [(Var 2, Var 3)] [[(Var 4, Var 5)]]
           1 1 1 1 1 eq_refl eq_refl eq_refl Hrows
           (le_n 1) (le_n 1) (le_n 1)).
Defined.

Lemma pad_then_unpad_witness :
  pad 4 1 row_3 3 1 4 buffer_4 =
    Some [[Var 0; Var 1; Var 2;
           Lit 0]] /\
  unpad 4 1 buffer_4 3 1 4 row_3 =
    Some [[Div (Var 10) (Lit 4);
           Div (Var 11) (Lit 4);
           Div (Var 12) (Lit 4)]].
Proof.
  assert (Forall (fun row : list fexpr => length row = 3%nat) row_3)
    as Himg by (repeat constructor).
  assert (Forall (fun row : list fexpr => length row = 4%nat) buffer_4)
    as Hbuf by (repeat constructor).
  exact (pad_then_unpad (F := fexpr) row_3 buffer_4 buffer_4 3 1 4 4 1
           eq_refl Himg eq_refl Hbuf eq_refl Hbuf
           (le_S _ _ (le_n 3)) (le_n 4) (le_n 1)).
Defined.

(** C6 as stated does not hold: with a filter length of 2 the padded
    row of a projection of width 3 has two samples, and the third is
    not copied. *)
Lemma pad_short_filter_drops_samples :
  ~ (exists out,
        pad 2 1 row_3 3 1 2 buffer_2 = Some out /\
        forall x, (x < 3)%nat -> get out (x, 0%nat) = get row_3 (x, 0%nat)).
Proof.
  intros (out & Hpad & Hcopy).
  vm_compute in Hpad. injection Hpad as <-.
  specialize (Hcopy 2%nat ltac:(lia)). discriminate Hcopy.
Qed.

End Instances.

(** * Further properties *)

(** ** The filter length and the index buffer *)

Section FilterLengthMore.
Import Geometry FilterLength FilterIndex.

Lemma pow2_ceil_log2_lt (n : Z) : 1 <= n -> pow2_ceil_log2 n < 2 * n.
Proof.
  intros Hn. unfold pow2_ceil_log2, ceil_log2.
  destruct (Z.eqb_spec n 0) as [->|_]; [lia|].
  destruct (Z.eq_dec n 1) as [->|Hn1]; [reflexivity|].
  destruct (Z.log2_up_spec n) as [Hlow _]; [lia|].
  assert (0 < Z.log2_up n) by (apply Z.log2_up_pos; lia).
  replace (Z.log2_up n) with (Z.succ (Z.pred (Z.log2_up n))) at 1 by lia.
  rewrite Z.pow_succ_r by lia. lia.
Qed.

(** For up to [2^20] detector rows, where the single-precision logarithm
    of the constructor and the exact one have the same ceiling, the
    filter length is a power of two, at least twice and less than four
    times the number of rows. *)
Theorem filter_length_bounds (geo : Geometry) :
  1 <= n_v geo <= 2 ^ 20 ->
  is_pow2 (filter_length geo) /\
  2 * n_v geo <= filter_length geo < 4 * n_v geo.
Proof.
  intros [Hn _]. unfold filter_length, n_v in *. split.
  - destruct (pow2_ceil_log2_pow2 _ Hn) as (k & Hk & ->).
    exists (k + 1). split; [lia|]. rewrite Z.pow_add_r by lia. lia.
  - pose proof (pow2_ceil_log2_ge (det_pixels_column geo)).
    pose proof (pow2_ceil_log2_lt (det_pixels_column geo)). lia.
Qed.

(** A detector whose number of rows is a power of two gets exactly twice
    that number. *)
Theorem filter_length_of_pow2 (columns k : Z) :
  0 <= k ->
  filter_length (mkGeometry columns (2 ^ k)) = 2 * 2 ^ k.
Proof.
  intros Hk. unfold filter_length, pow2_ceil_log2, ceil_log2. simpl.
  assert (0 < 2 ^ k) by (apply Z.pow_pos_nonneg; lia).
  destruct (Z.eqb_spec (2 ^ k) 0); [lia|].
  by rewrite Z.log2_up_pow2.
Qed.

(** Among detectors of up to [2^20] rows, more rows never give a
    shorter filter. *)
Theorem filter_length_monotone (geo geo' : Geometry) :
  0 <= n_v geo <= n_v geo' -> n_v geo' <= 2 ^ 20 ->
  filter_length geo <= filter_length geo'.
Proof.
  unfold filter_length, n_v, pow2_ceil_log2, ceil_log2. intros [H0 Hle] _.
  destruct (Z.eqb_spec (det_pixels_column geo) 0) as [E|E];
    destruct (Z.eqb_spec (det_pixels_column geo') 0) as [E'|E']; try lia.
  assert (2 ^ Z.log2_up (det_pixels_column geo)
          <= 2 ^ Z.log2_up (det_pixels_column geo')); [|lia].
  apply Z.pow_le_mono_r; [lia|]. by apply Z.log2_up_le_mono.
Qed.

(** The stores of the loop of [filterProcessor] that fall into the buffer
    write, for an even length, the consecutive integers from [-(L-2)/2]
    to [L/2]; the zero is at index [(L-2)/2]. *)
Theorem j_stores_in_buffer (L : nat) :
  (2 <= L)%nat -> Z.of_nat L < 2 ^ 31 -> Z.Even (Z.of_nat L) ->
  (forall k, (k < L)%nat ->
     j_stores L !! k = Some (k, - ((Z.of_nat L - 2) / 2) + Z.of_nat k)) /\
  j_stores L !! (L - 1)%nat = Some ((L - 1)%nat, Z.of_nat L / 2) /\
  j_stores L !! ((L - 2) / 2)%nat = Some (((L - 2) / 2)%nat, 0).
Proof.
  intros HL Hmax Heven.
  destruct (j_start_even L HL Hmax Heven) as [Hstart Hlast].
  assert (forall k, (k < L)%nat ->
            j_stores L !! k = Some (k, j_start L + Z.of_nat k)) as Hk.
  { intros k Hk. unfold j_stores. rewrite j_loop_stores_lookup by lia. done. }
  split; [|split].
  - intros k Hlt. rewrite Hk by done. by rewrite Hstart.
  - rewrite Hk by lia. by rewrite Hlast.
  - assert ((L - 2) / 2 < L)%nat by (apply Nat.Div0.div_lt_upper_bound; lia).
    rewrite Hk by done. do 2 f_equal. rewrite Hstart.
    rewrite Nat2Z.inj_div, Nat2Z.inj_sub by lia. simpl. lia.
Qed.

End FilterLengthMore.

(** ** The kernels at and beyond their bounds *)

Section KernelEdges.
Import Cuda FilterKernels.
Context {F : Type} `{FloatOps F}.
Local Open Scope float_scope.

(** A thread that cannot compute its value makes the launch fault. *)
Lemma for_each_cells_fault {B I A : Type} `{Buffer B I A}
    (guard : I -> bool) (g : I -> A -> option A) (ts : list I) (b : B) (i : I) :
  i ∈ ts -> guard i = true -> (forall old, g i old = None) ->
  for_each ts (cell_update guard g) b = None.
Proof.
  intros Hi Hg Hnone. revert b.
  induction ts as [|t ts IH]; intros b; [by apply elem_of_nil in Hi|].
  simpl. apply elem_of_cons in Hi as [<-|Hi].
  - unfold cell_update. rewrite Hg.
    destruct (get b i) as [old|]; [|done]. by rewrite Hnone.
  - destruct (cell_update guard g t b); [|done]. by apply IH.
Qed.

Lemma pad_take (img converted : list (list F)) (width height n tx ty : nat) :
  length img = height -> Forall (fun row => length row = width) img ->
  length converted = height -> Forall (fun row => length row = n) converted ->
  (n <= tx)%nat -> (height <= ty)%nat ->
  pad tx ty img width height n converted =
  Some ((fun row => take n (row ++ replicate (n - width) (of_Z 0))) <$> img).
Proof.
  intros Hih Hiw Hch Hcw Htx Hty. unfold pad, launch2D.
  etrans; [apply for_each_ext; intros; apply convertProjection_cell|].
  destruct (launch2D_cells
              (fun xy => bool_decide (xy.1 < n /\ xy.2 < height)%nat)
              (fun xy (_ : F) => if decide (xy.1 < width)%nat then get img xy
                                 else Some (of_Z 0))
              tx ty converted) as (out & Hrun & Hshape & Hcells).
  { intros x y [Hx Hy]%bool_decide_eq_true. simpl in Hx, Hy. split; [lia|].
    destruct (shape_lookup converted height n y) as (orow & Horow & Holen); [done..|].
    destruct (lookup_lt_is_Some_2 orow x) as [old Hold]; [lia|].
    exists old. simpl. rewrite Horow.
    destruct (decide (x < width)%nat); [|eauto].
    destruct (shape_lookup img height width y) as (irow & Hirow & Hilen); [done..|].
    destruct (lookup_lt_is_Some_2 irow x) as [v Hv]; [lia|].
    rewrite Hirow. eauto. }
  etrans; [exact Hrun|]. f_equal. apply buffer_2D_eq.
  - rewrite Hshape. apply (shape_eq _ _ n); [by rewrite length_fmap, Hih|done|].
    apply Forall_fmap. eapply Forall_impl; [exact Hiw|].
    intros row Hrow. simpl in *.
    rewrite length_take, length_app, length_replicate. lia.
  - intros x y. rewrite Hcells, get_2D_fmap. simpl.
    destruct (img !! y) as [irow|] eqn:Eirow; simpl.
    + assert (length irow = width) by (by eapply (Forall_lookup_1 _ _ _ _ Hiw)).
      apply lookup_lt_Some in Eirow.
      destruct (shape_lookup converted height n y) as (orow & -> & Holen); [done|done|lia|].
      case_bool_decide as Hxy; simpl in Hxy.
      * destruct (lookup_lt_is_Some_2 orow x) as [old ->]; [lia|]. simpl.
        rewrite lookup_take_lt by lia.
        destruct (decide (x < width)%nat).
        -- by rewrite lookup_app_l by lia.
        -- rewrite lookup_app_r by lia. symmetry.
           apply lookup_replicate_2. lia.
      * rewrite lookup_take_ge by lia.
        by rewrite lookup_ge_None_2 by lia.
    + apply lookup_ge_None in Eirow.
      rewrite (lookup_ge_None_2 converted y) by lia.
      by case_bool_decide.
Qed.

(** Whatever the filter length, padding gives every row the filter
    length: a wider row is cut, a narrower one continued with zeros. *)
Theorem pad_any_length (img converted : list (list F))
    (width height n tx ty : nat) :
  length img = height -> Forall (fun row => length row = width) img ->
  length converted = height -> Forall (fun row => length row = n) converted ->
  (n <= tx)%nat -> (height <= ty)%nat ->
  exists out,
    pad tx ty img width height n converted = Some out /\
    length out = height /\
    Forall (fun row => length row = n) out /\
    forall y row, img !! y = Some row ->
      out !! y = Some (take n (row ++ replicate (n - width) (of_Z 0))).
Proof.
  intros Hih Hiw Hch Hcw Htx Hty. eexists.
  split; [by apply pad_take|]. split; [by rewrite length_fmap|]. split.
  - apply Forall_fmap. eapply Forall_impl; [exact Hiw|].
    intros row Hrow. simpl in *.
    rewrite length_take, length_app, length_replicate. lia.
  - intros y row Hrow. by rewrite list_lookup_fmap, Hrow.
Qed.

(** Padding and unpadding with nothing in between give back every
    sample, divided by the filter length. *)
Theorem pad_unpad_round_trip (img converted : list (list F))
    (width height n tx ty : nat) :
  length img = height -> Forall (fun row => length row = width) img ->
  length converted = height -> Forall (fun row => length row = n) converted ->
  (width <= n)%nat -> (n <= tx)%nat -> (height <= ty)%nat ->
  exists padded,
    pad tx ty img width height n converted = Some padded /\
    unpad tx ty padded width height n img =
    Some ((fun row : list F => (fun v => v / of_Z (Z.of_nat n)) <$> row)
            <$> img).
Proof.
  intros Hih Hiw Hch Hcw Hwn Htx Hty. eexists. split; [by apply pad_eq|].
  rewrite unpad_eq; [|done|done|by rewrite length_fmap| |done|lia|done].
  - f_equal. rewrite <- list_fmap_compose. apply list_fmap_ext.
    intros y row Hrow. simpl.
    assert (length row = width) as <-
      by (by eapply (Forall_lookup_1 _ _ _ _ Hiw)).
    by rewrite take_app_length.
  - apply Forall_fmap. eapply Forall_impl; [exact Hiw|].
    intros row Hrow. simpl in *. rewrite length_app, length_replicate. lia.
Qed.

(** [createFilter] writes [size] elements and nothing behind them. *)
Theorem make_ramp_prefix (j : list Z) (tau : F) (size threads : nat) (r : list F) :
  (size <= length r)%nat -> (size <= length j)%nat -> (size <= threads)%nat ->
  make_ramp threads j size tau r =
  Some ((ramp tau <$> take size j) ++ drop size r).
Proof.
  intros Hr Hj Hthreads. unfold make_ramp, launch1D.
  etrans; [apply for_each_ext; intros; apply createFilter_cell|].
  destruct (launch1D_cells (fun x => bool_decide (x < size)%nat)
              (fun x (_ : F) => ramp tau <$> j !! x) threads r)
    as (r' & Hrun & Hlen & Hcells).
  { intros x Hx. apply bool_decide_eq_true in Hx. split; [lia|].
    destruct (lookup_lt_is_Some_2 r x) as [old Hold]; [lia|].
    destruct (lookup_lt_is_Some_2 j x) as [jx Hjx]; [lia|].
    exists old, (ramp tau jx). by rewrite Hjx. }
  etrans; [exact Hrun|]. f_equal. apply list_eq. intros x. rewrite Hcells.
  case_bool_decide as Hx.
  - rewrite lookup_app_l by (rewrite length_fmap, length_take; lia).
    rewrite list_lookup_fmap, lookup_take_lt by done.
    destruct (lookup_lt_is_Some_2 r x) as [old ->]; [lia|]. done.
  - rewrite lookup_app_r by (rewrite length_fmap, length_take; lia).
    rewrite length_fmap, length_take, lookup_drop. f_equal. lia.
Qed.

(** An index buffer shorter than [size] makes [createFilter] read
    outside it. *)
Theorem make_ramp_short_index_faults (j : list Z) (tau : F)
    (size threads : nat) (r : list F) :
  (length j < size)%nat -> (size <= threads)%nat ->
  make_ramp threads j size tau r = None.
Proof.
  intros Hj Hthreads. unfold make_ramp, launch1D.
  etrans; [apply for_each_ext; intros; apply createFilter_cell|].
  apply (for_each_cells_fault _ _ _ _ (length j)).
  - apply elem_of_seq. lia.
  - by apply bool_decide_eq_true.
  - intros _. by rewrite lookup_ge_None_2.
Qed.

(** The response [createK] builds scales both parts of every element of
    the transformed projection by the same real factor [tau * |X|]. *)
Theorem multiply_by_K (tau : F) (filter : list cufftComplex)
    (transformed : list (list cufftComplex)) (n h threads tx ty : nat) :
  length filter = n -> length transformed = h ->
  Forall (fun row => length row = n) transformed ->
  (n <= threads)%nat -> (n <= tx)%nat -> (h <= ty)%nat ->
  exists K,
    make_K threads n tau filter = Some K /\
    multiply tx ty K n h transformed =
    Some ((fun row =>
             zip_with (fun a X => (a.1 * magnitude tau X, a.2 * magnitude tau X))
                      row filter) <$> transformed).
Proof.
  intros Hf Hh Hrows Hthreads Htx Hty. eexists.
  split; [by apply make_K_eq|].
  rewrite multiply_eq; [|by rewrite length_fmap|done..].
  f_equal. apply list_fmap_ext. intros y row _.
  by rewrite zip_with_fmap_r.
Qed.

End KernelEdges.

(** ** One thread of the legacy filter *)

Section ProcessorFacts.
Import Cuda FilterKernels FilterProcessor.
Context {F : Type} `{FloatOps F}.
Variable launch_size : nat -> nat.
Variable cufftExecR2C : list F -> list (@cufftComplex F).
Variable cufftExecC2R : nat -> list (@cufftComplex F) -> list F.


End ProcessorFacts.

(** ** The preloader under any runtime *)

Section PreloaderMore.
Import Preloader PreloaderOutputs.
Variable cuda : nat -> option cuda_exception.

Ltac run_call :=
  unfold do_allocate_smart, do_create_concurrent_stream, do_fill, do_copy,
    do_synchronize_stream, do_set_device, output_, cuda_call, emit; simpl.


Lemma outputs_upload_events (p : input_type) (d s : nat) :
  outputs (upload_events p d s) = [forward p d s].
Proof. done. Qed.

Lemma outputs_uploads (ps : list input_type) (d s : nat) :
  outputs (uploads ps d s) = forwards ps d s.
Proof.
  revert d s. induction ps as [|p ps IH]; intros d s; [done|].
  simpl. unfold outputs in *. simpl. by rewrite IH.
Qed.




End PreloaderMore.

Section PreloaderTheorems.
Import Preloader PreloaderOutputs.



End PreloaderTheorems.

(** ** The legacy filter under a schedule *)

Section FilterScheduleFacts.
Import FilterProcess FilterSchedule.

Lemma spawn_fold (img : image) (ds : list Z) (f : Filter) :
  NoDup ds ->
  fold_left
    (fun f i =>
       if decide (device img = i) then
         let t := mkThread img i in
         mkFilter (devices_ f) (processor_threads_ f ++ [t])
                  (running f ++ [t]) (results_ f)
       else f) ds f =
  if decide (device img ∈ ds) then with_thread img f else f.
Proof.
  intros Hnd. revert f. induction Hnd as [|i ds Hi Hnd IH]; intros f.
  - destruct (decide (device img ∈ [])) as [Hin|]; [|done].
    by apply elem_of_nil in Hin.
  - cbn [fold_left]. rewrite IH.
    destruct (decide (device img = i)) as [<-|Hne].
    + destruct (decide (device img ∈ ds)); [done|].
      destruct (decide (device img ∈ device img :: ds)) as [|Hnin]; [done|].
      exfalso. apply Hnin. apply list_elem_of_here.
    + destruct (decide (device img ∈ ds)) as [Hin|Hnin];
        destruct (decide (device img ∈ i :: ds)) as [Hin'|Hnin']; try done.
      * exfalso. apply Hnin'. by apply list_elem_of_further.
      * apply elem_of_cons in Hin' as [?|?]; done.
Qed.

Lemma process_valid (order : list thread -> list thread) (img : image)
    (f : Filter) :
  valid img = true ->
  process order img f =
  if decide (0 <= device img < devices_ f) then with_thread img f else f.
Proof.
  intros Himg. unfold process, spawn. rewrite Himg. simpl.
  rewrite spawn_fold by apply NoDup_seqZ.
  destruct (decide (0 <= device img < devices_ f)).
  - by rewrite decide_True by (apply elem_of_seqZ; lia).
  - rewrite decide_False; [done|]. rewrite elem_of_seqZ. lia.
Qed.


(** A valid image is given to one thread, on its own device, when that
    device is one of the filter's; an image of any other device is
    dropped, without a thread and without a result. *)
Theorem process_spawns_on_own_device (order : list thread -> list thread)
    (img : image) (f : Filter) :
  valid img = true ->
  (0 <= device img < devices_ f ->
   process order img f =
   mkFilter (devices_ f)
            (processor_threads_ f ++ [mkThread img (device img)])
            (running f ++ [mkThread img (device img)]) (results_ f)) /\
  (~ 0 <= device img < devices_ f -> process order img f = f).
Proof.
  intros Himg. rewrite process_valid by done. split; intros Hdev.
  - by rewrite decide_True.
  - by rewrite decide_False.
Qed.


End FilterScheduleFacts.

(** ** The device master *)

Section CUDAMasterFacts.
Import CUDAMaster.

(** The constructor succeeds on the compute capabilities it knows and
    on no other.  When it succeeds the master has 4, 16 or 32 workers and
    the last line printed says that it is constructed; when it does not,
    it throws a [runtime_error] that names the device and the capability,
    in one format at all three places, after the first line only. *)
Theorem constructor_cases (device_num : Z) (properties : cudaDeviceProp) :
  (supported properties /\
   exists m second,
     constructor device_num properties =
       (inl m,
        [concurrency_line device_num properties; second;
         ("CUDAMaster for device #" ++ to_string device_num
          ++ " constructed.")%string]) /\
     device_ m = device_num /\
     (workerCount m = 4 \/ workerCount m = 16 \/ workerCount m = 32)) \/
  (~ supported properties /\
   constructor device_num properties =
     (inr (runtime_error (unsupported_message device_num properties)),
      [concurrency_line device_num properties])).
Proof.
  destruct properties as [ck maj mi].
  unfold constructor, resident_grids, supported, unsupported_message,
    concurrency_line, workerCount. simpl.
  destruct (Z.eqb_spec maj 2) as [->|H2].
  { left. split; [lia|]. eexists _, _. split; [reflexivity|]. simpl. lia. }
  destruct (Z.eqb_spec maj 3) as [->|H3].
  { destruct (Z.eqb_spec mi 0) as [->|M0].
    { left. split; [lia|]. eexists _, _. split; [reflexivity|]. simpl. lia. }
    destruct (Z.eqb_spec mi 2) as [->|M2].
    { left. split; [lia|]. eexists _, _. split; [reflexivity|]. simpl. lia. }
    destruct (Z.eqb_spec mi 5) as [->|M5].
    { left. split; [lia|]. eexists _, _. split; [reflexivity|]. simpl. lia. }
    destruct (Z.eqb_spec mi 7) as [->|M7].
    { left. split; [lia|]. eexists _, _. split; [reflexivity|]. simpl. lia. }
    right. split; [lia|]. reflexivity. }
  destruct (Z.eqb_spec maj 5) as [->|H5].
  { destruct (Z.eqb_spec mi 0) as [->|M0].
    { left. split; [lia|]. eexists _, _. split; [reflexivity|]. simpl. lia. }
    destruct (Z.eqb_spec mi 2) as [->|M2].
    { left. split; [lia|]. eexists _, _. split; [reflexivity|]. simpl. lia. }
    destruct (Z.eqb_spec mi 3) as [->|M3].
    { left. split; [lia|]. eexists _, _. split; [reflexivity|]. simpl. lia. }
    right. split; [lia|]. reflexivity. }
  right. split; [lia|]. reflexivity.
Qed.

(** Moving a master keeps its device and its number of workers. *)
Lemma move_keeps (m : CUDAMaster) :
  device_ (move m) = device_ m /\ workerCount (move m) = workerCount m.
Proof. done. Qed.

End CUDAMasterFacts.

(** ** The sink without a sentinel and the end of [main] *)

Section SinkAndMainMore.
Import SinkStage.

(** A sink whose input holds valid images only saves them all and then
    waits for input: it does not return. *)
Theorem sink_waits_without_sentinel (this : SinkStage) (input : list image) :
  Forall (fun img => valid img = true) input ->
  run this input =
  (blocks,
   (fun img => saveImage img "/home/ufxray/Schreibtisch/Feldkamp/out.tif")
     <$> input).
Proof.
  induction 1 as [|img input Himg Hinput IH]; simpl; [done|].
  by rewrite Himg, IH.
Qed.

End SinkAndMainMore.

Section MainExitFacts.
Import MainExit.

Lemma get_all_None (futures : list (option exception)) :
  get_all futures = None <-> Forall (fun f => f = None) futures.
Proof.
  induction futures as [|[e|] futures IH]; simpl.
  - split; [constructor|done].
  - split; [done|]. by intros [[=] _]%Forall_cons.
  - rewrite IH. split; [by constructor|]. by intros [_ ?]%Forall_cons.
Qed.

Lemma get_all_first (pre rest : list (option exception)) (e : exception) :
  Forall (fun f => f = None) pre ->
  get_all (pre ++ Some e :: rest) = Some e.
Proof. induction 1 as [|f pre -> Hpre IH]; simpl; done. Qed.

(** When pipelines fail, [main] reports the one of the lowest device:
    the futures are asked in the order of the devices and the first
    exception ends the loop. *)
Theorem finish_reports_first_failure (pre rest : list (option exception))
    (e : exception) (rate ticks : Z) :
  Forall (fun f => f = None) pre ->
  finish true None None (pre ++ Some e :: rest) rate ticks =
  (EXIT_FAILURE, [(fatal, failure_line e); (fatal, "Aborting."%string)]).
Proof.
  intros Hpre. unfold finish, thrown. rewrite get_all_first by done.
  by destruct e.
Qed.

Lemma setw2_two_digits (s : Z) :
  0 <= s < 60 -> setw2 (CUDAMaster.to_string s) = two_digits s.
Proof.
  intros Hs.
  assert (forallb (fun s => String.eqb (setw2 (CUDAMaster.to_string s))
                                       (two_digits s))
                  (seqZ 0 60) = true) as Hall by (vm_compute; reflexivity).
  rewrite forallb_forall in Hall.
  apply String.eqb_eq, Hall, list_elem_of_In, elem_of_seqZ. lia.
Qed.

(** The elapsed time is printed as minutes, a colon and two digits of
    seconds below 60, and the two make up the whole seconds of the
    duration. *)
Theorem elapsed_minutes_seconds (rate ticks : Z) :
  0 < rate -> 0 <= ticks ->
  exists m s,
    0 <= m /\ 0 <= s < 60 /\ ticks / rate = 60 * m + s /\
    elapsed rate ticks =
    (CUDAMaster.to_string m ++ ":" ++ two_digits s)%string.
Proof.
  intros Hrate Hticks. unfold elapsed.
  exists (ticks / rate / 60), ((ticks / rate) mod 60).
  assert (0 <= ticks / rate) by (apply Z.div_pos; lia).
  pose proof (Z.mod_pos_bound (ticks / rate) 60 ltac:(lia)).
  split; [apply Z.div_pos; lia|]. split; [done|].
  split; [apply Z.div_mod; lia|].
  rewrite !Z.quot_div_nonneg by lia.
  rewrite Z.rem_mod_nonneg by lia.
  rewrite setw2_two_digits by done.
  by rewrite Z.div_div, (Z.mul_comm rate 60) by lia.
Qed.

End MainExitFacts.

(** ** Instances of the further properties *)

Section MoreInstances.
Import Samples MoreSamples Cuda FilterKernels.

Lemma filter_length_bounds_witness :
  FilterLength.is_pow2 (FilterLength.filter_length (Geometry.mkGeometry 8 5)) /\
  2 * 5 <= FilterLength.filter_length (Geometry.mkGeometry 8 5) < 4 * 5.
Proof.
  apply (filter_length_bounds (Geometry.mkGeometry 8 5)). simpl. lia.
Defined.

Lemma filter_length_of_pow2_witness :
  FilterLength.filter_length (Geometry.mkGeometry 8 (2 ^ 3)) = 2 * 2 ^ 3.
Proof. apply (filter_length_of_pow2 8 3). lia. Defined.

Lemma filter_length_monotone_witness :
  FilterLength.filter_length (Geometry.mkGeometry 8 5) <=
  FilterLength.filter_length (Geometry.mkGeometry 8 9).
Proof.
  apply (filter_length_monotone (Geometry.mkGeometry 8 5)
                                (Geometry.mkGeometry 8 9)); simpl; lia.
Defined.

Lemma j_stores_in_buffer_witness :
  FilterIndex.j_stores 4 !! 3%nat = Some (3%nat, 4 / 2) /\
  FilterIndex.j_stores 4 !! 1%nat = Some (1%nat, 0).
Proof.
  destruct (j_stores_in_buffer 4) as (_ & Hlast & Hzero).
  - lia.
  - reflexivity.
  - by exists 2.
  - split; [exact Hlast | exact Hzero].
Defined.

Lemma pad_any_length_witness :
  exists out,
    pad 2 1 row_3 3 1 2 buffer_2 = Some out /\
    length out = 1%nat /\
    Forall (fun row => length row = 2%nat) out /\
    forall y row, row_3 !! y = Some row ->
      out !! y = Some (take 2 (row ++ replicate (2 - 3) (of_Z 0))).
Proof.
  assert (Forall (fun row : list fexpr => length row = 3%nat) row_3)
    as Himg by (repeat constructor).
  assert (Forall (fun row : list fexpr => length row = 2%nat) buffer_2)
    as Hbuf by (repeat constructor).
  exact (pad_any_length (F := fexpr) row_3 buffer_2 3 1 2 2 1
           eq_refl Himg eq_refl Hbuf (le_n 2) (le_n 1)).
Defined.

Lemma pad_unpad_round_trip_witness :
  exists padded,
    pad 4 1 row_3 3 1 4 buffer_4 = Some padded /\
    unpad 4 1 padded 3 1 4 row_3 =
    Some [[Div (Var 0) (Lit 4); Div (Var 1) (Lit 4); Div (Var 2) (Lit 4)]].
Proof.
  assert (Forall (fun row : list fexpr => length row = 3%nat) row_3)
    as Himg by (repeat constructor).
  assert (Forall (fun row : list fexpr => length row = 4%nat) buffer_4)
    as Hbuf by (repeat constructor).
  exact (pad_unpad_round_trip (F := fexpr) row_3 buffer_4 3 1 4 4 1
           eq_refl Himg eq_refl Hbuf (le_S _ _ (le_n 3)) (le_n 4) (le_n 1)).
Defined.

Lemma make_ramp_prefix_witness :
  make_ramp 8 [-1; 0; 1; 2] 2 (Var 0) ramp_4 =
  Some ((ramp (Var 0) <$> take 2 [-1; 0; 1; 2]) ++ drop 2 ramp_4).
Proof.
  apply (make_ramp_prefix (F := fexpr) [-1; 0; 1; 2] (Var 0) 2 8 ramp_4);
    simpl; lia.
Defined.

Lemma make_ramp_short_index_faults_witness :
  make_ramp 8 [-1; 0] 4 (Var 0) ramp_4 = None.
Proof.
  apply (make_ramp_short_index_faults (F := fexpr) [-1; 0] (Var 0) 4 8 ramp_4);
    simpl; lia.
Defined.

Lemma multiply_by_K_witness :
  exists K,
    make_K 1 1 (Var 9) [(Var 0, Var 1)] = Some K /\
    multiply 1 1 K 1 1 [[(Var 4, Var 5)]] =
    Some [[(Mul (Var 4) (magnitude (Var 9) (Var 0, Var 1)),
            Mul (Var 5) (magnitude (Var 9) (Var 0, Var 1)))]].
Proof.
  assert (Forall (fun row : list (fexpr * fexpr) => length row = 1%nat)
                 [[(Var 4, Var 5)]]) as Hrows by (repeat constructor).
  exact (multiply_by_K (F := fexpr) (Var 9) [(Var 0, Var 1)]
           [[(Var 4, Var 5)]] 1 1 1 1 1 eq_refl eq_refl Hrows
           (le_n 1) (le_n 1) (le_n 1)).
Defined.




Lemma process_spawns_on_own_device_witness :
  FilterProcess.process id image_elsewhere (FilterSchedule.construct 1) =
  FilterSchedule.construct 1.
Proof.
  destruct (process_spawns_on_own_device id image_elsewhere
              (FilterSchedule.construct 1)) as [_ Hdropped].
  - reflexivity.
  - apply Hdropped. simpl. lia.
Defined.


Lemma sink_returns_on_sentinel_witness :
  SinkStage.run (SinkStage.construct "/data/volume")
    ([SinkStage.mkImage true 3] ++ SinkStage.mkImage false 0
       :: [SinkStage.mkImage true 4]) =
  (SinkStage.returns [SinkStage.mkImage true 4],
   [SinkStage.saveImage (SinkStage.mkImage true 3)
      "/home/ufxray/Schreibtisch/Feldkamp/out.tif"]).
Proof.
  apply (sink_returns_on_sentinel (SinkStage.construct "/data/volume")
           [SinkStage.mkImage true 3] (SinkStage.mkImage false 0)
           [SinkStage.mkImage true 4]).
  - repeat constructor.
  - reflexivity.
Defined.

Lemma sink_waits_without_sentinel_witness :
  SinkStage.run (SinkStage.construct "/data/volume")
    [SinkStage.mkImage true 3] =
  (SinkStage.blocks,
   [SinkStage.saveImage (SinkStage.mkImage true 3)
      "/home/ufxray/Schreibtisch/Feldkamp/out.tif"]).
Proof.
  apply (sink_waits_without_sentinel (SinkStage.construct "/data/volume")
           [SinkStage.mkImage true 3]).
  repeat constructor.
Defined.

Lemma finish_reports_first_failure_witness :
  MainExit.finish true None None
    ([None] ++ Some (MainExit.stage_runtime_error "preloader_stage::run() failed")
       :: [Some (MainExit.stage_runtime_error "later")]) 1000000000 0 =
  (MainExit.EXIT_FAILURE,
   [(MainExit.fatal,
     "main(): Pipeline execution failed: preloader_stage::run() failed"%string);
    (MainExit.fatal, "Aborting."%string)]).
Proof.
  apply (finish_reports_first_failure [None]
           [Some (MainExit.stage_runtime_error "later")]
           (MainExit.stage_runtime_error "preloader_stage::run() failed")).
  repeat constructor.
Defined.

Lemma elapsed_minutes_seconds_witness :
  exists m s,
    0 <= m /\ 0 <= s < 60 /\ 125500000000 / 1000000000 = 60 * m + s /\
    MainExit.elapsed 1000000000 125500000000 =
    (CUDAMaster.to_string m ++ ":" ++ MainExit.two_digits s)%string.
Proof.
  apply (elapsed_minutes_seconds 1000000000 125500000000); lia.
Defined.

Lemma elapsed_example :
  MainExit.elapsed 1000000000 125500000000 = "2:05"%string.
Proof. reflexivity. Qed.

End MoreInstances.

(** * The sentinel, the driver and the pool *)

Section DriverFacts.
Import Main.

Lemma launch_all_ok (async_throws : Z -> bool) (ds : list Z)
    (task_queue sink : ref) :
  (forall d, d ∈ ds -> async_throws d = false) ->
  launch_all async_throws ds task_queue sink =
  (fun d => launch_pipeline (Some task_queue) d sink
                            input_limit parallel_projections) <$> ds.
Proof.
  induction ds as [|d ds IH]; intros Hok; simpl; [done|].
  rewrite Hok by apply list_elem_of_here.
  rewrite IH; [done|]. intros d' Hd'. apply Hok. by apply list_elem_of_further.
Qed.

(** C9, under the guard of [main] and when the [try] block reaches and
    completes the launch loop.  When I/O is enabled and nothing throws
    before or in the launch loop, [main] launches one pipeline per
    device; each has the task queue of [main] and the sink of [main], and
    connects Source, Preloader, Weighting, Filter, Reconstruction and Sink
    in this order. *)
Theorem main_launches_pipelines (po : program_options)
    (geometry_throws startup_throws : bool) (async_throws : Z -> bool)
    (devices : Z) (task_queue sink : ref) :
  enable_io po = true ->
  geometry_throws = false -> startup_throws = false ->
  (forall d, 0 <= d < devices -> async_throws d = false) ->
  length (main po geometry_throws startup_throws async_throws devices
               task_queue sink) = Z.to_nat devices /\
  forall d, 0 <= d < devices ->
    exists p,
      main po geometry_throws startup_throws async_throws devices
           task_queue sink !! Z.to_nat d = Some (Some p) /\
      queue p = task_queue /\
      connected p =
        [source_stage; preloader_stage 1 5 d; weighting_stage 1 d;
         filter_stage 1 d; reconstruction_stage 1 d; sink_stage sink] /\
      started p = connected p /\
      stage_order p =
        ["Source"; "Preloader"; "Weighting"; "Filter"; "Reconstruction";
         "Sink"]%string.
Proof.
  intros Hio -> -> Hasync. unfold main. rewrite Hio.
  rewrite launch_all_ok by (intros d Hd%elem_of_seqZ; apply Hasync; lia).
  split.
  - by rewrite length_fmap, length_seqZ.
  - intros d Hd. eexists. split.
    + rewrite list_lookup_fmap, lookup_seqZ_lt by lia. simpl.
      rewrite Z2Nat.id by lia. reflexivity.
    + done.
Qed.

End DriverFacts.

Section SentinelFacts.
Import FilterProcess.


End SentinelFacts.

Section MainStatusFacts.
Import MainExit.



End MainStatusFacts.

(** ** The preloader with its pool *)

Section PooledFacts.
Import PooledPreloader.
Variable cuda : nat -> option Preloader.cuda_exception.
Variable returned : nat -> list nat.

Ltac pooled_call :=
  unfold do_create_concurrent_stream, do_fill, do_copy,
    do_synchronize_stream, do_set_device, output_, BOOST_LOG_TRIVIAL,
    cuda_call, emit; simpl.

(** What a granted allocation is: a buffer that was free or returned,
    re-issued without a call into the runtime, or a new one, allocated
    while fewer than [limit] exist. *)
Lemma allocate_granted (w h : nat) (st st1 : state) (b : nat) :
  do_allocate_smart cuda returned w h st = (done (Preloader.device b), st1) ->
  trace st1 = trace st ++ [Preloader.allocate_smart w h (Preloader.device b)] /\
  next_stream st1 = next_stream st /\
  allocations st1 = S (allocations st) /\
  ((b ∈ free (pool_ st) ++ returned (allocations st) /\
    calls st1 = calls st /\ created (pool_ st1) = created (pool_ st)) \/
   (free (pool_ st) ++ returned (allocations st) = [] /\
    (created (pool_ st) < limit (pool_ st))%nat /\
    b = created (pool_ st) /\ created (pool_ st1) = S b /\
    calls st1 = S (calls st) /\ cuda (calls st) = None)).
Proof.
  unfold do_allocate_smart.
  destruct (free (pool_ st) ++ returned (allocations st)) as [|b' rest] eqn:Efree.
  - destruct (Nat.ltb_spec (created (pool_ st)) (limit (pool_ st))) as [Hlt|Hge];
      [|intros [=]].
    unfold cuda_call. destruct (cuda (calls st)) eqn:Ecall; [intros [=]|].
    intros [= <- <-]. simpl. do 3 (split; [done|]). right. done.
  - intros [= <- <-]. simpl. do 3 (split; [done|]). left.
    split; [apply list_elem_of_here | done].
Qed.

Lemma turn_after_allocation (p : Preloader.input_type) (b : nat) (st1 : state) :
  (forall i, (i < 4)%nat -> cuda (calls st1 + i) = None) ->
  (stream ← do_create_concurrent_stream cuda;
   do_fill cuda (Preloader.device b) 0 stream
           (Preloader.width p) (Preloader.height p);;
   do_copy cuda (Preloader.device b) (Preloader.ptr p) stream
           (Preloader.width p) (Preloader.height p);;
   do_synchronize_stream cuda stream;;
   output_ (Preloader.mkProjection (Preloader.device b) (Preloader.width p)
              (Preloader.height p) (Preloader.idx p) (Preloader.phi p)
              true stream)) st1 =
  (done tt,
   mkState (calls st1 + 4) (allocations st1) (pool_ st1) (S (next_stream st1))
           (trace st1 ++ turn_events p b (next_stream st1))).
Proof.
  intros Hc.
  pose proof (Hc 0%nat ltac:(lia)) as H0. rewrite Nat.add_0_r in H0.
  pose proof (Hc 1%nat ltac:(lia)) as H1. rewrite Nat.add_1_r in H1.
  pose proof (Hc 2%nat ltac:(lia)) as H2.
  replace (calls st1 + 2)%nat with (S (S (calls st1))) in H2 by lia.
  pose proof (Hc 3%nat ltac:(lia)) as H3.
  replace (calls st1 + 3)%nat with (S (S (S (calls st1)))) in H3 by lia.
  unfold mbind, M_bind. pooled_call.
  rewrite H0. simpl. rewrite H1. simpl. rewrite H2. simpl. rewrite H3. simpl.
  f_equal. f_equal; [lia|]. unfold turn_events. by rewrite <- !app_assoc.
Qed.

Lemma upload_granted (p : Preloader.input_type) (b : nat) (st st1 : state) :
  do_allocate_smart cuda returned (Preloader.width p) (Preloader.height p) st
    = (done (Preloader.device b), st1) ->
  (forall i, (i < 4)%nat -> cuda (calls st1 + i) = None) ->
  upload cuda returned p st =
  (done tt,
   mkState (calls st1 + 4) (allocations st1) (pool_ st1) (S (next_stream st))
     (trace st ++
      Preloader.allocate_smart (Preloader.width p) (Preloader.height p)
        (Preloader.device b) :: turn_events p b (next_stream st))).
Proof.
  intros Halloc Hc.
  destruct (allocate_granted _ _ _ _ _ Halloc) as (Htr & Hs & _).
  unfold upload. unfold mbind at 1, M_bind at 1. rewrite Halloc.
  rewrite (turn_after_allocation p b st1 Hc). rewrite Htr, Hs.
  by rewrite <- app_assoc.
Qed.

(** With a pool whose buffers are all handed out and none returned,
    [allocate_smart] waits. *)
Lemma allocate_waits (w h : nat) (st : state) :
  free (pool_ st) = [] -> returned (allocations st) = [] ->
  (limit (pool_ st) <= created (pool_ st))%nat ->
  do_allocate_smart cuda returned w h st = (waits, st).
Proof.
  intros Hfree Hret Hfull. unfold do_allocate_smart. rewrite Hfree, Hret. simpl.
  by destruct (Nat.ltb_spec (created (pool_ st)) (limit (pool_ st))); [lia|].
Qed.

Lemma upload_new (p : Preloader.input_type) (st : state) :
  free (pool_ st) = [] -> returned (allocations st) = [] ->
  (created (pool_ st) < limit (pool_ st))%nat ->
  (forall i, (i < 5)%nat -> cuda (calls st + i) = None) ->
  upload cuda returned p st =
  (done tt,
   mkState (calls st + 5) (S (allocations st))
     (mkPool (limit (pool_ st)) (S (created (pool_ st))) [])
     (S (next_stream st))
     (trace st ++
      Preloader.upload_events p (created (pool_ st)) (next_stream st))).
Proof.
  intros Hfree Hret Hlt Hc.
  assert (do_allocate_smart cuda returned (Preloader.width p)
            (Preloader.height p) st =
          (done (Preloader.device (created (pool_ st))),
           mkState (S (calls st)) (S (allocations st))
             (mkPool (limit (pool_ st)) (S (created (pool_ st))) [])
             (next_stream st)
             (trace st ++ [Preloader.allocate_smart (Preloader.width p)
                             (Preloader.height p)
                             (Preloader.device (created (pool_ st)))])))
    as Halloc.
  { unfold do_allocate_smart. rewrite Hfree, Hret. simpl.
    destruct (Nat.ltb_spec (created (pool_ st)) (limit (pool_ st))); [|lia].
    unfold cuda_call, emit. simpl.
    pose proof (Hc 0%nat ltac:(lia)) as H0. rewrite Nat.add_0_r in H0.
    by rewrite H0. }
  rewrite (upload_granted p _ _ _ Halloc); simpl.
  - f_equal. f_equal. lia.
  - intros i Hi. replace (S (calls st + i)) with (calls st + S i)%nat by lia.
    apply Hc. lia.
Qed.

Lemma loop_new (pre tail : list Preloader.input_type) (st : state) :
  Forall (fun p => Preloader.valid p = true) pre ->
  free (pool_ st) = [] -> (forall n, returned n = []) ->
  (created (pool_ st) + length pre <= limit (pool_ st))%nat ->
  (forall n, cuda n = None) ->
  loop cuda returned (pre ++ tail) st =
  loop cuda returned tail
    (mkState (calls st + 5 * length pre) (allocations st + length pre)
       (mkPool (limit (pool_ st)) (created (pool_ st) + length pre) [])
       (next_stream st + length pre)
       (trace st ++
        Preloader.uploads pre (created (pool_ st)) (next_stream st))).
Proof.
  intros Hvalid. revert st.
  induction Hvalid as [|p pre Hp Hpre IH]; intros st Hfree Hret Hroom Hc; simpl.
  - rewrite !Nat.add_0_r, app_nil_r. destruct st as [? ? [? ? ?] ? ?].
    simpl in *. by subst.
  - rewrite Hp. simpl. unfold mbind at 1, M_bind at 1.
    rewrite upload_new by (done || (simpl in Hroom; lia)).
    rewrite IH; simpl; [|done|done|simpl in Hroom; lia|done].
    f_equal. f_equal; [lia|lia|f_equal; lia|lia|by rewrite <- app_assoc].
Qed.

End PooledFacts.

Section PooledTheorems.
Import PooledPreloader.

(** C8, when the pool grants a buffer and the runtime does not fail.
    For a valid projection, one turn of the loop takes a buffer from the
    pool (a returned one, or a new one while fewer than [limit] exist),
    creates a concurrent stream, fills the buffer with zeros, copies the
    host pixels, synchronises the stream once and pushes the projection
    with the buffer, that stream and the width, height, index and angle
    it came with. *)
Theorem pooled_upload_forwards cuda returned (p : Preloader.input_type)
    rest st b st1 :
  Preloader.valid p = true ->
  do_allocate_smart cuda returned (Preloader.width p) (Preloader.height p) st
    = (done (Preloader.device b), st1) ->
  (forall i, (i < 4)%nat -> cuda (calls st1 + i)%nat = None) ->
  loop cuda returned (p :: rest) st =
  loop cuda returned rest
    (mkState (calls st1 + 4) (allocations st1) (pool_ st1)
       (S (next_stream st))
       (trace st ++
        [ Preloader.allocate_smart (Preloader.width p) (Preloader.height p)
            (Preloader.device b);
          Preloader.create_concurrent_stream
            (Preloader.concurrent_stream (next_stream st));
          Preloader.fill_async (Preloader.device b) 0
            (Preloader.concurrent_stream (next_stream st))
            (Preloader.width p) (Preloader.height p);
          Preloader.copy_async (Preloader.device b) (Preloader.ptr p)
            (Preloader.concurrent_stream (next_stream st))
            (Preloader.width p) (Preloader.height p);
          Preloader.synchronize_stream
            (Preloader.concurrent_stream (next_stream st));
          Preloader.output
            (Preloader.mkProjection (Preloader.device b) (Preloader.width p)
               (Preloader.height p) (Preloader.idx p) (Preloader.phi p) true
               (Preloader.concurrent_stream (next_stream st))) ])) /\
  ((b ∈ free (pool_ st) ++ returned (allocations st) /\
    calls st1 = calls st) \/
   ((created (pool_ st) < limit (pool_ st))%nat /\
    b = created (pool_ st) /\ calls st1 = S (calls st))).
Proof.
  intros Hp Halloc Hc. split.
  - simpl. rewrite Hp. simpl. unfold mbind at 1, M_bind at 1.
    by rewrite (upload_granted cuda returned p b st st1 Halloc Hc).
  - destruct (allocate_granted _ _ _ _ _ _ _ Halloc)
      as (_ & _ & _ & [(Hin & Hcalls & _)|(_ & Hlt & Hb & _ & Hcalls & _)]).
    + by left.
    + by right.
Qed.

(** With stages downstream that keep every projection and a runtime that
    does not fail, a preloader given valid projections only uploads as
    many as its pool has buffers: if they all fit it then waits for
    input, and if not it waits for a buffer after [limit] uploads.  It
    neither returns nor pushes a sentinel. *)
Theorem pooled_preloader_waits cuda returned device_
    (input : list Preloader.input_type) (pool_limit : nat) :
  (forall n, cuda n = None) -> (forall n, returned n = []) ->
  Forall (fun p => Preloader.valid p = true) input ->
  run cuda returned device_ input (initial pool_limit) =
  if decide (length input <= pool_limit)%nat then
    (waits_for_input,
     mkState (1 + 5 * length input) (length input)
       (mkPool pool_limit (length input) []) (length input)
       (Preloader.set_device device_ :: Preloader.uploads input 0 0))
  else
    (waits_for_buffer,
     mkState (1 + 5 * pool_limit) pool_limit
       (mkPool pool_limit pool_limit []) pool_limit
       (Preloader.set_device device_
          :: Preloader.uploads (take pool_limit input) 0 0)).
Proof.
  intros Hc Hret Hvalid. unfold run, try_block.
  unfold mbind at 1, M_bind at 1. unfold do_set_device, cuda_call, emit.
  simpl. rewrite Hc. simpl. unfold mbind at 1, M_bind at 1.
  destruct (decide (length input <= pool_limit)%nat) as [Hfit|Hmore].
  - pose proof (loop_new cuda returned input []
                  (mkState 1 0 (mkPool pool_limit 0 []) 0
                           [Preloader.set_device device_])
                  Hvalid eq_refl Hret) as Hloop.
    rewrite app_nil_r in Hloop. rewrite Hloop by (done || (simpl; lia)).
    done.
  - rewrite <- (take_drop pool_limit input) at 1.
    rewrite (loop_new cuda returned (take pool_limit input)
               (drop pool_limit input)
               (mkState 1 0 (mkPool pool_limit 0 []) 0
                        [Preloader.set_device device_]));
      [|by apply Forall_take|done|done|simpl; rewrite length_take; lia|done].
    rewrite length_take, Nat.min_l by lia. simpl.
    destruct (drop pool_limit input) as [|p rest] eqn:Edrop.
    { apply (f_equal length) in Edrop. rewrite length_drop in Edrop.
      simpl in Edrop. lia. }
    assert (Preloader.valid p = true) as Hp.
    { assert (Forall (fun p : Preloader.input_type => Preloader.valid p = true)
                     (drop pool_limit input)) as Hd by (by apply Forall_drop).
      rewrite Edrop in Hd. by apply Forall_cons in Hd as [? _]. }
    simpl. rewrite Hp. simpl. unfold mbind at 1, M_bind at 1.
    unfold upload. unfold mbind at 1, M_bind at 1.
    rewrite allocate_waits; [done|done|apply Hret|simpl; lia].
Qed.

End PooledTheorems.

(** ** Instances for the stages, the driver and the pool *)

Section StageInstances.
Import Samples MoreSamples.



Lemma pooled_upload_forwards_witness :
  PooledPreloader.loop Preloader.never_fails PooledPreloader.nothing_returned
    [projection_7; sentinel] (PooledPreloader.initial 5) =
  (PooledPreloader.done (Preloader.broke []),
   PooledPreloader.mkState 5 1 (PooledPreloader.mkPool 5 1 []) 1
     [ Preloader.allocate_smart 4 2 (Preloader.device 0);
       Preloader.create_concurrent_stream (Preloader.concurrent_stream 0);
       Preloader.fill_async (Preloader.device 0) 0
         (Preloader.concurrent_stream 0) 4 2;
       Preloader.copy_async (Preloader.device 0) (Preloader.host 0)
         (Preloader.concurrent_stream 0) 4 2;
       Preloader.synchronize_stream (Preloader.concurrent_stream 0);
       Preloader.output
         (Preloader.mkProjection (Preloader.device 0) 4 2 7 30 true
            (Preloader.concurrent_stream 0)) ]).
Proof.
  destruct (pooled_upload_forwards Preloader.never_fails
              PooledPreloader.nothing_returned projection_7 [sentinel]
              (PooledPreloader.initial 5) 0
              (PooledPreloader.mkState 1 1 (PooledPreloader.mkPool 5 1 []) 0
                 [Preloader.allocate_smart 4 2 (Preloader.device 0)]))
    as [Hloop _].
  - reflexivity.
  - reflexivity.
  - intros i _. reflexivity.
  - rewrite Hloop. reflexivity.
Defined.

(** C8 as stated does not hold: when the allocation for a valid
    projection fails, the projection is received and not forwarded. *)
Lemma pooled_failure_forwards_nothing :
  ~ (exists r st' out,
        PooledPreloader.run failing_allocation
          PooledPreloader.nothing_returned 0 [projection_7; sentinel]
          (PooledPreloader.initial 5) = (r, st') /\
        Preloader.output out ∈ PooledPreloader.trace st' /\
        Preloader.valid out = true).
Proof.
  intros (r & st' & out & Hrun & Hin & Hvalid).
  vm_compute in Hrun. injection Hrun as <- <-. simpl in Hin.
  apply elem_of_cons in Hin as [Hin|Hin]; [discriminate|].
  apply elem_of_cons in Hin as [Hin|Hin]; [discriminate|].
  by apply elem_of_nil in Hin.
Qed.

Lemma pooled_preloader_waits_witness :
  PooledPreloader.run Preloader.never_fails PooledPreloader.nothing_returned
    0 [projection_7; projection_7] (PooledPreloader.initial 1) =
  (PooledPreloader.waits_for_buffer,
   PooledPreloader.mkState 6 1 (PooledPreloader.mkPool 1 1 []) 1
     (Preloader.set_device 0
        :: Preloader.uploads (take 1 [projection_7; projection_7]) 0 0)).
Proof.
  etrans.
  - apply (pooled_preloader_waits Preloader.never_fails
             PooledPreloader.nothing_returned 0
             [projection_7; projection_7] 1).
    + intros n. reflexivity.
    + intros n. reflexivity.
    + repeat constructor.
  - reflexivity.
Defined.

Lemma main_launches_pipelines_witness :
  length (Main.main io_enabled false false (fun _ => false) 2
            (Main.address 0) (Main.address 1)) = 2%nat.
Proof.
  apply (main_launches_pipelines io_enabled false false (fun _ => false) 2
           (Main.address 0) (Main.address 1));
    first [reflexivity | intros d _; reflexivity].
Defined.

(** C9 as stated does not hold: with I/O disabled and two devices no
    pipeline is launched. *)
Lemma main_without_io_launches_nothing :
  ~ (length (Main.main io_disabled false false (fun _ => false) 2
               (Main.address 0) (Main.address 1))
     = Z.to_nat 2).
Proof. simpl. discriminate. Qed.

End StageInstances.
